(** * Episodic memory engine of orb-backend: a shallow embedding

    The development follows the two source files of the repository:

    - [config.py]: the collection-naming rule ([get_collection_name]);
    - [memory_v2.py]: the reflection parser ([RobustJsonParser.parse]),
      the transcript formatter ([format_conversation]), the embedding call
      ([embed_text]), the write path ([add_episodic_memory]), the hybrid
      ranker ([hybrid_merge]) and the retrieval ([episodic_recall]).

    Modelling conventions.

    - Python exceptions are values of [exn]; a computation that may raise
      returns [Exc A].  Code that also changes the vector store runs in the
      state-and-exception monad [M], in which the store changes made before
      an exception persist, as they do in the program.
    - Python [float]s are idealised as exact rationals ([Q]); scores are
      compared up to [Qeq].  Rounding is outside the model.
    - A Python [dict] is an insertion-ordered association list ([dict]):
      assigning to a present key keeps the key's position, assigning to an
      absent key appends it.
    - The external collaborators (language model chain, HTTP embedding
      endpoint, [uuid4], the store's two read paths, the [json] module) are
      Section variables: every theorem holds for all their behaviours. *)

From Stdlib Require Import List String Ascii ZArith QArith Lia Lqa.
From Stdlib Require Import Permutation Sorted Bool.
From stdpp Require Import gmap strings pretty sorting.
Import ListNotations.

Open Scope string_scope.
Open Scope list_scope.

(** ** Python exceptions *)

Inductive exn : Type :=
| NameError (name : string)
| ZeroDivisionError
| IndexError
| KeyError
| TypeError
| AttributeError
| JSONDecodeError (msg : string)
| ConnectionError (msg : string)
| UnexpectedResponse (msg : string)
| Exception_ (msg : string).

(** [str(e)], as used by the f-string of the parser's handler. *)
Definition str_exn (e : exn) : string :=
match e with
| NameError name => "name '" +:+ name +:+ "' is not defined"
| ZeroDivisionError => "division by zero"
| IndexError => "list index out of range"
| KeyError => "0"
| TypeError => "object is not subscriptable"
| AttributeError => "object has no attribute"
| JSONDecodeError msg => msg
| ConnectionError msg => msg
| UnexpectedResponse msg => msg
| Exception_ msg => msg
end.

Inductive Exc (A : Type) : Type :=
| Ok (a : A)
| Raise (e : exn).
Arguments Ok {A} a.
Arguments Raise {A} e.

(** Sequencing: the first exception raised ends the computation.  The
  notation [x ← c; k] is stdpp's. *)
#[global] Instance exc_ret : MRet Exc := fun _ a => Ok a.
#[global] Instance exc_bind : MBind Exc := fun _ _ k c =>
match c with
| Ok a => k a
| Raise e => Raise e
end.

(** [try: body except Exception as e: handler(e)]. *)
Definition try_except {A} (body : Exc A) (handler : exn -> A) : A :=
match body with
| Ok a => a
| Raise e => handler e
end.

(** ** JSON values (what [json.loads] and [response.json()] produce, and
  what a payload holds) *)

#[warnings="-register-all"] Inductive json : Type :=
| JNull
| JBool (b : bool)
| JNum (q : Q)
| JStr (s : string)
| JArr (items : list json)
| JObj (fields : list (string * json)).

(** ** Insertion-ordered dictionaries *)

Section Dict.
Context {V : Type}.

Definition dict : Type := list (string * V).

Fixpoint dict_get (d : dict) (k : string) : option V :=
  match d with
  | [] => None
  | (k', v) :: rest => if String.eqb k' k then Some v else dict_get rest k
  end.

(** [d[k] = v] *)
Fixpoint dict_set (d : dict) (k : string) (v : V) : dict :=
  match d with
  | [] => [(k, v)]
  | (k', v') :: rest =>
      if String.eqb k' k then (k', v) :: rest
      else (k', v') :: dict_set rest k v
  end.

(** [d.get(k, default)] *)
Definition dict_get_default (d : dict) (k : string) (default : V) : V :=
  match dict_get d k with
  | Some v => v
  | None => default
  end.

Definition dict_keys (d : dict) : list string := d.*1.
Definition dict_values (d : dict) : list V := d.*2.
End Dict.
Arguments dict V : clear implicits.

(** [obj.get(k, default)] on a JSON object; any other value has no [get]. *)
Definition json_get (o : json) (k : string) (default : json) : Exc json :=
  match o with
  | JObj fields => Ok (dict_get_default fields k default)
  | _ => Raise AttributeError
  end.

(** ** config.py *)

Module Config.

Definition BASE_COLLECTION_NAME : string := "memory_orb".

(** [f"{BASE_COLLECTION_NAME}_{user_id}"] *)
Definition get_collection_name (user_id : string) : string :=
  BASE_COLLECTION_NAME +:+ "_" +:+ user_id.

Definition default_user : string := "default_user".

End Config.

(** ** Python string primitives used by the sources

    A [string] is read as the sequence of its characters; indices are
    Python integers ([Z]), negative where Python returns or accepts them. *)

Module PyStr.

Fixpoint find_from (c : ascii) (s : string) (i : Z) : Z :=
  match s with
  | EmptyString => (-1)%Z
  | String a rest => if Ascii.eqb a c then i else find_from c rest (i + 1)%Z
  end.

(** [s.find(c)]: index of the first occurrence, [-1] when absent. *)
Definition find (c : ascii) (s : string) : Z := find_from c s 0%Z.

Fixpoint rfind_from (c : ascii) (s : string) (i last : Z) : Z :=
  match s with
  | EmptyString => last
  | String a rest =>
      rfind_from c rest (i + 1)%Z (if Ascii.eqb a c then i else last)
  end.

(** [s.rfind(c)]: index of the last occurrence, [-1] when absent. *)
Definition rfind (c : ascii) (s : string) : Z := rfind_from c s 0%Z (-1)%Z.

(** A slice bound as Python normalises it: a negative bound counts from
    the end, and every bound is clamped to [0 .. len]. *)
Definition clamp (len i : Z) : Z :=
  if (i <? 0)%Z then Z.max 0 (i + len) else Z.min i len.

(** [s[start:stop]] *)
Definition slice (s : string) (start stop : Z) : string :=
  let len := Z.of_nat (String.length s) in
  let lo := clamp len start in
  let hi := clamp len stop in
  if (lo <? hi)%Z then substring (Z.to_nat lo) (Z.to_nat (hi - lo)) s
  else "".

(** [c.upper()] on the ASCII letters. *)
Definition upper_ascii (c : ascii) : ascii :=
  let n := nat_of_ascii c in
  if ((97 <=? n) && (n <=? 122))%nat then ascii_of_nat (n - 32) else c.

Fixpoint upper (s : string) : string :=
  match s with
  | EmptyString => EmptyString
  | String a rest => String (upper_ascii a) (upper rest)
  end.

(** [sep.join(parts)] *)
Fixpoint join (sep : string) (parts : list string) : string :=
  match parts with
  | [] => ""
  | [p] => p
  | p :: rest => p +:+ sep +:+ join sep rest
  end.

End PyStr.

(** ** memory_v2.py: the reflection parser *)

Module Parser.

(** The names bound at module level in [memory_v2.py]: its imports and
    its own definitions.  A global name resolves only when it is in this
    list (no builtin is called [json]). *)
Definition memory_v2_globals : list string :=
  [ "ChatPromptTemplate"; "JsonOutputParser";
    "get_user_memory"; "openai_client"; "llm"; "global_memory";
    "get_collection_name"; "init_user_collection";
    "config"; "qdrant_client"; "embedder_info";
    "uuid4"; "PointStruct"; "Filter"; "FieldCondition"; "MatchText";
    "HumanMessage"; "AIMessage"; "SystemMessage"; "requests"; "List";
    "creat_reflection_prompt"; "RobustJsonParser"; "format_conversation";
    "embed_text"; "add_episodic_memory"; "episodic_recall";
    "hybrid_merge"; "episodic_system_prompt" ].

(** Evaluating a global name. *)
Definition load_global (globals : list string) (name : string) : Exc unit :=
  if decide (name ∈ globals) then Ok tt
  else Raise (NameError name).

(** The dictionary built by the handler. *)
Definition error_draft (e : exn) (text : string) : json :=
  JObj [ ("error", JStr ("解析失败: " +:+ str_exn e)); ("raw", JStr text) ].

Section Parse.
(** [json.loads] of Python's standard library. *)
Variable json_loads : string -> Exc json.

(** The body of [RobustJsonParser.parse], run with the given module
    globals. *)
Definition parse_in (globals : list string) (text : string) : json :=
  try_except
    (let start := PyStr.find "{" text in
     let end_ := (PyStr.rfind "}" text + 1)%Z in
     _ ← load_global globals "json";
     json_loads (PyStr.slice text start end_))
    (fun e => error_draft e text).

(** [RobustJsonParser.parse] as the module defines it. *)
Definition parse (text : string) : json :=
  parse_in memory_v2_globals text.
End Parse.

End Parser.

(** ** memory_v2.py: the hybrid ranker *)

Module Ranker.

Open Scope Q_scope.

#[global] Instance Qeq_decision : RelDecision Qeq := Qeq_dec.

(** A point as the store returns it.  The ranker reads [id] of every item
    and [score] of the items of the similarity path only; [payload] is
    carried along untouched.  For a record of the keyword path the [score]
    field stands for nothing: it is never read. *)
Record Item : Type := mkItem {
  item_id : string;
  item_score : Q;
  item_payload : json
}.

Definition ids (l : list Item) : list string := item_id <$> l.

(** [a / b] on Python integers: true division, raising on a zero divisor. *)
Definition py_truediv (a b : Z) : Exc Q :=
  if (b =? 0)%Z then Raise ZeroDivisionError
  else Ok (inject_Z a / inject_Z b).

(** [sorted(l, key=key, reverse=True)]: descending by key, and stable
    (items with equal keys keep their relative order in [l]). *)
Fixpoint insert_desc {A} (key : A -> Q) (x : A) (l : list A) : list A :=
  match l with
  | [] => [x]
  | y :: rest =>
      if Qle_bool (key y) (key x) then x :: y :: rest
      else y :: insert_desc key x rest
  end.

Fixpoint sorted_reverse {A} (key : A -> Q) (l : list A) : list A :=
  match l with
  | [] => []
  | x :: rest => insert_desc key x (sorted_reverse key rest)
  end.

(** First loop of [hybrid_merge]:
    [scores[item.id] = alpha * (1 - item.score)]. *)
Definition vector_scores (alpha : Q) (vector_res : list Item) : dict Q :=
  foldl
    (fun scores item =>
       dict_set scores (item_id item) (alpha * (1 - item_score item)))
    [] vector_res.

(** [(idx + 1) / len(keyword_res)] *)
Definition bm25_score (idx n : nat) : Exc Q :=
  py_truediv (Z.of_nat idx + 1) (Z.of_nat n).

(** [(1 - alpha) * bm25_score], the amount the second loop adds for the
    item at index [idx] of [n] keyword results. *)
Definition keyword_term (alpha : Q) (idx n : nat) : Exc Q :=
  b ← bm25_score idx n; Ok ((1 - alpha) * b).

(** Second loop of [hybrid_merge], from index [idx] on; [n] is
    [len(keyword_res)] of the whole list. *)
Fixpoint keyword_scores (alpha : Q) (n idx : nat) (keyword_res : list Item)
    (scores : dict Q) : Exc (dict Q) :=
  match keyword_res with
  | [] => Ok scores
  | item :: rest =>
      term ← keyword_term alpha idx n;
      let scores' :=
        match dict_get scores (item_id item) with
        | Some s => dict_set scores (item_id item) (s + term)
        | None => dict_set scores (item_id item) term
        end in
      keyword_scores alpha n (S idx) rest scores'
  end.

(** The [scores] dictionary after both loops. *)
Definition merge_scores (alpha : Q) (vector_res keyword_res : list Item)
    : Exc (dict Q) :=
  keyword_scores alpha (length keyword_res) 0 keyword_res
    (vector_scores alpha vector_res).

(** [{item.id: item for item in vector_res + keyword_res}] *)
Definition all_items (vector_res keyword_res : list Item) : dict Item :=
  foldl (fun d item => dict_set d (item_id item) item)
    [] (vector_res ++ keyword_res).

(** The sort key: [scores.get(x.id, 0)]. *)
Definition score_of (scores : dict Q) (x : Item) : Q :=
  dict_get_default scores (item_id x) 0.

Definition hybrid_merge (vector_res keyword_res : list Item) (alpha : Q)
    : Exc (list Item) :=
  scores ← merge_scores alpha vector_res keyword_res;
  Ok (sorted_reverse (score_of scores)
        (dict_values (all_items vector_res keyword_res))).

(** The text filter of the keyword path:
    [Filter(must=[FieldCondition(key=..., match=MatchText(text=...))])]. *)
Record TextFilter : Type := mkTextFilter {
  filter_key : string;
  filter_text : string
}.

Section Recall.
(** [embedder_info.embed_query] *)
Variable embed_query : string -> Exc (list Q).
(** [qdrant_client.search(collection_name, query_vector, limit)] *)
Variable search : string -> list Q -> nat -> Exc (list Item).
(** [qdrant_client.scroll(collection_name, scroll_filter, limit)], read as
    the list of points the scan yields. *)
Variable scroll : string -> TextFilter -> nat -> Exc (list Item).

End Recall.

(** *** The fusion rule in the specification's words *)

(** The item of [l] that a dictionary keyed by id ends up holding for
    [ident]: the last one carrying that id. *)
Definition last_with_id (ident : string) (l : list Item) : option Item :=
  foldl
    (fun found x => if String.eqb (item_id x) ident then Some x else found)
    None l.

(** Similarity contribution: [alpha * (1 - nativeScore)] for the item's
    appearance in the similarity results, zero when it does not appear.
    Should an id be repeated there, its last item counts. *)
Definition sim_contribution (alpha : Q) (Sr : list Item) (ident : string)
    : Q :=
  match last_with_id ident Sr with
  | Some x => alpha * (1 - item_score x)
  | None => 0
  end.

(** [position / count], position counted from 1. *)
Definition rank_score (pos n : nat) : Q :=
  inject_Z (Z.of_nat pos) / inject_Z (Z.of_nat n).

(** Keyword contribution: [(1 - alpha) * (i / |K|)] for each appearance
    of the id at 1-based position [i] of the keyword results. *)
Fixpoint keyword_sum (alpha : Q) (n pos : nat) (Kr : list Item)
    (ident : string) : Q :=
  match Kr with
  | [] => 0
  | x :: rest =>
      (if String.eqb (item_id x) ident then (1 - alpha) * rank_score pos n
       else 0)
      + keyword_sum alpha n (S pos) rest ident
  end.

Definition keyword_contribution (alpha : Q) (Kr : list Item) (ident : string)
    : Q :=
  keyword_sum alpha (length Kr) 1 Kr ident.

Definition fused_score (alpha : Q) (Sr Kr : list Item) (ident : string) : Q :=
  sim_contribution alpha Sr ident + keyword_contribution alpha Kr ident.

(** The fused score of an item, by its id. *)
Definition fused_key (alpha : Q) (Sr Kr : list Item) (x : Item) : Q :=
  fused_score alpha Sr Kr (item_id x).

(** Identifiers in order of first encounter. *)
Fixpoint first_seen (l : list string) : list string :=
  match l with
  | [] => []
  | k :: rest =>
      k :: filter (fun k' => k' <> k) (first_seen rest)
  end.

(** The items of [l] whose id is [ident]. *)
Definition with_id (ident : string) (l : list Item) : list Item :=
  filter (fun x => item_id x = ident) l.



(** Sample results: two points of the similarity path, two records of the
    keyword path, the id [b] being on both. *)
Definition sim_a : Item := mkItem "a" (1 # 10) (JStr "a, by similarity").
Definition sim_b : Item := mkItem "b" (3 # 10) (JStr "b, by similarity").
Definition kw_c : Item := mkItem "c" 0 (JStr "c, by keyword").
Definition kw_b : Item := mkItem "b" 0 (JStr "b, by keyword").

End Ranker.

(** ** memory_v2.py: the write path *)

Module Store.

(** [PointStruct(id=..., vector=..., payload=...)] *)
Record PointStruct : Type := mkPoint {
  point_id : string;
  point_vector : json;
  point_payload : json
}.

(** The world a write runs in: the collections of the vector store, and
    how many identifiers [uuid4] has handed out so far. *)
Record World : Type := mkWorld {
  collections : gmap string (list PointStruct);
  uuid_draws : nat
}.

(** State and exceptions: the world reached is returned also when the
    computation raises. *)
Definition M (A : Type) : Type := World -> Exc A * World.

#[global] Instance m_ret : MRet M := fun _ a w => (Ok a, w).
#[global] Instance m_bind : MBind M := fun _ _ k c w =>
  match c w with
  | (Ok a, w') => k a w'
  | (Raise e, w') => (Raise e, w')
  end.

(** A computation that does not touch the world. *)
Definition lift {A} (c : Exc A) : M A := fun w => (c, w).

(** Modelled from the spec: the vector store capability (section 6),
    whose client is not part of the repository.  [collection_exists] is
    the existence check. *)
Definition collection_exists (name : string) : M bool :=
  fun w => (Ok (bool_decide (is_Some (collections w !! name))), w).

(** Modelled from the spec: [init_user_collection], imported from
    [config.py] where only a commented-out draft of it remains.  Following
    [ensureCollection] (section 4.2) and that draft's [recreate_collection],
    it leaves the user's collection existing and empty. *)
Definition init_user_collection (user_id : string) : M unit :=
  fun w =>
    (Ok tt,
     mkWorld (<[Config.get_collection_name user_id := []]> (collections w))
             (uuid_draws w)).

(** Upsert of one point into the points of a collection: a point with the
    same id is replaced in place, a new id is appended. *)
Fixpoint upsert_point (p : PointStruct) (pts : list PointStruct)
    : list PointStruct :=
  match pts with
  | [] => [p]
  | p' :: rest =>
      if String.eqb (point_id p') (point_id p) then p :: rest
      else p' :: upsert_point p rest
  end.

(** Modelled from the spec: point-upsert of the vector store capability.
    Upserting into a collection that does not exist is a store failure. *)
Definition upsert (collection_name : string) (points : list PointStruct)
    : M unit :=
  fun w =>
    match collections w !! collection_name with
    | None =>
        (Raise (UnexpectedResponse "Not found: collection does not exist"), w)
    | Some pts =>
        (Ok tt,
         mkWorld (<[collection_name := foldl (fun l p => upsert_point p l) pts points]>
            (collections w))
                 (uuid_draws w))
    end.

(** A chat message: [message.type] and [message.content]. *)
Record Message : Type := mkMessage {
  msg_type : string;
  msg_content : string
}.

Definition newline : string := String (ascii_of_nat 10) "".

(** [messages[1:]] skips the system message; each remaining turn is
    rendered as [f"{message.type.upper()}: {message.content}"]. *)
Definition format_conversation (messages : list Message) : string :=
  PyStr.join newline
    ((fun message =>
        PyStr.upper (msg_type message) +:+ ": " +:+ msg_content message)
     <$> drop 1 messages).

(** One turn of the transcript. *)
Definition turn_line (message : Message) : string :=
  PyStr.upper (msg_type message) +:+ ": " +:+ msg_content message.

(** What [requests.post] returns: [status_code], [text] (the raw body) and
    the outcome of [response.json()]. *)
Record Response : Type := mkResponse {
  status_code : Z;
  text : string;
  response_json : Exc json
}.

(** [v[0]] *)
Definition py_index0 (v : json) : Exc json :=
  match v with
  | JArr (x :: _) => Ok x
  | JArr [] => Raise IndexError
  | JStr (String c _) => Ok (JStr (String c ""))
  | JStr EmptyString => Raise IndexError
  | JObj _ => Raise KeyError
  | _ => Raise TypeError
  end.

Definition embeddings_url : string := "http://localhost:11434/api/embeddings".

(** The JSON body that [embed_text] posts. *)
Definition embed_request (text : json) : json :=
  JObj [ ("model", JStr "nomic-embed-text"); ("text", text) ].

Definition embed_failure (body : string) : exn :=
  Exception_ ("Ollama API 请求失败: " +:+ body).

Section WritePath.
(** [creat_reflection_prompt().invoke({"conversation": conversation})]:
    the prompt, the language model and the output parser, as one call. *)
Variable reflect : string -> Exc json.
(** [requests.post(url, json=body)] *)
Variable requests_post : string -> json -> Exc Response.
(** [str(uuid4())] at the n-th draw. *)
Variable uuid4 : nat -> string.

Definition embed_text (text : json) : Exc json :=
  response ← requests_post embeddings_url (embed_request text);
  if negb (status_code response =? 200)%Z
  then Raise (embed_failure (Store.text response))
  else
    body ← response_json response;
    json_get body "embedding" (JArr []).

Definition fresh_uuid : M string :=
  fun w => (Ok (uuid4 (uuid_draws w)),
            mkWorld (collections w) (S (uuid_draws w))).

(** The payload dictionary of the point, in the order the source writes
    its keys. *)
Definition episode_payload (conversation : string) (reflection : json)
    : Exc json :=
  context_tags ← json_get reflection "context_tags" (JArr []);
  conversation_summary ← json_get reflection "conversation_summary" (JStr "");
  what_worked ← json_get reflection "what_worked" (JStr "");
  what_to_avoid ← json_get reflection "what_to_avoid" (JStr "");
  Ok (JObj [ ("conversation", JStr conversation);
             ("context_tags", context_tags);
             ("conversation_summary", conversation_summary);
             ("what_worked", what_worked);
             ("what_to_avoid", what_to_avoid) ]).

(** [add_episodic_memory(messages, user_id)]; the [print] calls are left
    out. *)
Definition add_episodic_memory (messages : list Message) (user_id : string)
    : M unit :=
  let collection_name := Config.get_collection_name user_id in
  present ← collection_exists collection_name;
  _ ← (if negb present then init_user_collection user_id else mret tt);
  let conversation := format_conversation messages in
  reflection ← lift (reflect conversation);
  summary ← lift (json_get reflection "conversation_summary" (JStr ""));
  batch ← lift (embed_text (JArr [summary]));
  embedding ← lift (py_index0 batch);
  ident ← fresh_uuid;
  payload ← lift (episode_payload conversation reflection);
  let point := mkPoint ident embedding payload in
  upsert collection_name [point].
End WritePath.

(** The points stored under a collection name, none when the collection
    does not exist. *)
Definition points_of (w : World) (name : string) : list PointStruct :=
  default [] (collections w !! name).

(** The world once the user's collection has been checked and, when
    absent, created: where [add_episodic_memory] stands before it calls
    the reflection chain. *)
Definition ensured (user_id : string) (w : World) : World :=
  match collections w !! Config.get_collection_name user_id with
  | Some _ => w
  | None =>
      mkWorld (<[Config.get_collection_name user_id := []]> (collections w))
              (uuid_draws w)
  end.

(** The payload written for a transcript and the fields of a reflection. *)
Definition payload_of (conversation : string) (fields : list (string * json))
    : json :=
  JObj [ ("conversation", JStr conversation);
         ("context_tags", dict_get_default fields "context_tags" (JArr []));
         ("conversation_summary",
          dict_get_default fields "conversation_summary" (JStr ""));
         ("what_worked", dict_get_default fields "what_worked" (JStr ""));
         ("what_to_avoid", dict_get_default fields "what_to_avoid" (JStr "")) ].

(** Sample collaborators and data. *)
Definition empty_world : World := mkWorld ∅ 0.

Definition sample_messages : list Message :=
  [ mkMessage "system" "You are a helpful assistant.";
    mkMessage "human" "What is attention?";
    mkMessage "ai" "A weighting of values by query-key similarity." ].

Definition sample_reflect : string -> Exc json :=
  fun _ =>
    Ok (JObj [ ("context_tags", JArr [JStr "attention_mechanism"]);
               ("conversation_summary", JStr "Explained attention.");
               ("what_worked", JStr "A short definition.");
               ("what_to_avoid", JStr "N/A") ]).

(** An endpoint that answers every request with status 500. *)
Definition failing_post : string -> json -> Exc Response :=
  fun _ _ =>
    Ok (mkResponse 500 "model not found"
          (Raise (JSONDecodeError "Expecting value"))).

(** An endpoint that answers a batch with one vector per text. *)
Definition batch_post : string -> json -> Exc Response :=
  fun _ _ =>
    Ok (mkResponse 200 "ok"
          (Ok (JObj [ ("embedding",
                       JArr [JArr [JNum (1 # 10); JNum (2 # 10)]]) ]))).

Definition sample_uuid4 : nat -> string :=
  fun n => "point-" +:+ pretty n.

(** An endpoint that answers 200 with an object without [embedding]. *)
Definition keyless_post : string -> json -> Exc Response :=
  fun _ _ => Ok (mkResponse 200 "{}" (Ok (JObj []))).


(** A store that already holds one episode of the user [alice]. *)
Definition old_point : PointStruct :=
  mkPoint "old" (JArr [JNum (3 # 10)]) (JObj [("conversation", JStr "")]).

Definition stocked_world : World :=
  mkWorld {[ "memory_orb_alice" := [old_point] ]} 0.

End Store.

(** ** config.py: the per-user configuration

    [get_user_config] copies dictionaries and assigns into the copies, so
    what it does to the global [config] is a matter of sharing.  The
    dictionaries live in a heap of objects; a dictionary entry holds a
    string, a number or a reference to another dictionary. *)

Module UserConfig.

Inductive value : Type :=
| VStr (s : string)
| VNum (q : Q)
| VRef (l : nat).

Abbreviation heap := (gmap nat (dict value)).

(** State (the heap) and exceptions. *)
Definition H (A : Type) : Type := heap -> Exc A * heap.

#[global] Instance h_ret : MRet H := fun _ a h => (Ok a, h).
#[global] Instance h_bind : MBind H := fun _ _ k c h =>
  match c h with
  | (Ok a, h') => k a h'
  | (Raise e, h') => (Raise e, h')
  end.

(** [d.copy()] on the dictionary at [l]: a new object with the same
    entries (a shallow copy). *)
Definition dict_copy (l : nat) : H nat :=
  fun h =>
    match h !! l with
    | Some d => (Ok (fresh (dom h)), <[fresh (dom h) := d]> h)
    | None => (Raise AttributeError, h)
    end.

(** [d[k]] on the dictionary at [l]. *)
Definition getitem (l : nat) (k : string) : H value :=
  fun h =>
    match h !! l with
    | Some d =>
        match dict_get d k with
        | Some v => (Ok v, h)
        | None => (Raise KeyError, h)
        end
    | None => (Raise TypeError, h)
    end.

(** [d[k] = v] on the dictionary at [l]. *)
Definition setitem (l : nat) (k : string) (v : value) : H unit :=
  fun h =>
    match h !! l with
    | Some d => (Ok tt, <[l := dict_set d k v]> h)
    | None => (Raise TypeError, h)
    end.

(** The same three operations on a value: only a dictionary has them. *)
Definition copy_of (v : value) : H nat :=
  match v with
  | VRef l => dict_copy l
  | _ => fun h => (Raise AttributeError, h)
  end.

Definition getitem_of (v : value) (k : string) : H value :=
  match v with
  | VRef l => getitem l k
  | _ => fun h => (Raise TypeError, h)
  end.

Definition setitem_of (v : value) (k : string) (x : value) : H unit :=
  match v with
  | VRef l => setitem l k x
  | _ => fun h => (Raise TypeError, h)
  end.

(** [get_user_config(user_id)], [config] being the object the module
    global refers to.  In each assignment the right-hand side is
    evaluated first, then the target. *)
Definition get_user_config (config : nat) (user_id : string) : H nat :=
  user_config ← dict_copy config;
  vector_store ← getitem config "vector_store";
  vector_store' ← copy_of vector_store;
  _ ← setitem user_config "vector_store" (VRef vector_store');
  vector_store ← getitem config "vector_store";
  store_config ← getitem_of vector_store "config";
  store_config' ← copy_of store_config;
  target ← getitem user_config "vector_store";
  _ ← setitem_of target "config" (VRef store_config');
  let name := Config.get_collection_name user_id in
  target ← getitem user_config "vector_store";
  target ← getitem_of target "config";
  _ ← setitem_of target "collection_name" (VStr name);
  mret user_config.

(** The dictionary literal [config] of the module, laid out in a heap:
    object 0 is [config] itself. *)
Definition API_KEY : string := "Your API Key".

Definition config_heap : heap :=
  list_to_map
    [ (0%nat, [ ("llm", VRef 1); ("embedder", VRef 3);
                ("vector_store", VRef 5); ("version", VStr "v1.1") ]);
      (1%nat, [ ("provider", VStr "openai"); ("config", VRef 2) ]);
      (2%nat, [ ("api_key", VStr API_KEY); ("model", VStr "gpt-4o-mini");
                ("temperature", VNum (2 # 10)); ("max_tokens", VNum 2000);
                ("top_p", VNum 1) ]);
      (3%nat, [ ("provider", VStr "ollama"); ("config", VRef 4) ]);
      (4%nat, [ ("model", VStr "mxbai-embed-large") ]);
      (5%nat, [ ("provider", VStr "qdrant"); ("config", VRef 6) ]);
      (6%nat, [ ("collection_name", VStr Config.BASE_COLLECTION_NAME);
                ("host", VStr "localhost"); ("port", VNum 6333);
                ("embedding_model_dims", VNum 1024) ]) ].

(** Reading [root[k1][k2][k3]] without changing the heap. *)
Definition read3 (h : heap) (root : nat) (k1 k2 k3 : string) : Exc value :=
  fst ((v1 ← getitem root k1; v2 ← getitem_of v1 k2; getitem_of v2 k3) h).

End UserConfig.

(** ** memory_v2.py: the context composer *)

Module Prompt.
Import Ranker.

(** [v[k]] with a string key: only a dictionary can be indexed by it. *)
Definition py_getitem (v : json) (k : string) : Exc json :=
  match v with
  | JObj fields =>
      match dict_get fields k with
      | Some x => Ok x
      | None => Raise KeyError
      end
  | _ => Raise TypeError
  end.

(** The characters of a string, as iterating over it yields them. *)
Fixpoint chars (s : string) : list string :=
  match s with
  | EmptyString => []
  | String c rest => String c "" :: chars rest
  end.

(** The items of a list as [str.join] accepts them: strings only. *)
Fixpoint strings_of (items : list json) : Exc (list string) :=
  match items with
  | [] => Ok []
  | JStr s :: rest => parts ← strings_of rest; Ok (s :: parts)
  | _ :: _ => Raise TypeError
  end.

(** [sep.join(v)]: over the items of a list, the characters of a string
    or the keys of a dictionary; anything else is not iterable. *)
Definition py_join (sep : string) (v : json) : Exc string :=
  match v with
  | JArr items => parts ← strings_of items; Ok (PyStr.join sep parts)
  | JStr s => Ok (PyStr.join sep (chars s))
  | JObj fields => Ok (PyStr.join sep (dict_keys fields))
  | _ => Raise TypeError
  end.




Section Compose.
Variable embed_query : string -> Exc (list Q).
Variable search : string -> list Q -> nat -> Exc (list Item).
Variable scroll : string -> TextFilter -> nat -> Exc (list Item).
(** [str(v)] of a payload value that is not a string, as an f-string
    renders it. *)
Variable py_str : json -> string.


End Compose.



End Prompt.

(** * Properties *)

(** Closes a decidable goal on concrete data by evaluation. *)
Ltac by_decide := apply (bool_decide_unpack _); vm_compute; exact I.

(** ** Collection naming *)

Section Naming.
Import Config.

Lemma append_cancel_l (p s1 s2 : string) : p +:+ s1 = p +:+ s2 -> s1 = s2.
Proof.
  induction p as [|c p IH]; simpl; intros H.
  - exact H.
  - injection H as H. auto.
Qed.

Lemma get_collection_name_inj (u1 u2 : string) :
  get_collection_name u1 = get_collection_name u2 -> u1 = u2.
Proof.
  unfold get_collection_name. intros H.
  apply append_cancel_l in H. now apply append_cancel_l in H.
Qed.

(** C9. The collection name is the fixed prefix, an underscore and the
    user id; it is the same at every call for the same user id, and two
    distinct user ids never share a name. *)
Theorem get_collection_name_deterministic_injective (u1 u2 : string) :
  get_collection_name u1 = "memory_orb" +:+ "_" +:+ u1 /\
  get_collection_name u1 = get_collection_name u1 /\
  (u1 <> u2 -> get_collection_name u1 <> get_collection_name u2).
Proof.
  split; [reflexivity|]. split; [reflexivity|].
  intros Hne Heq. apply Hne. now apply get_collection_name_inj.
Qed.

Lemma get_collection_name_deterministic_injective_witness :
  "alice" <> "bob" /\
  get_collection_name "alice" = "memory_orb_alice" /\
  get_collection_name "alice" <> get_collection_name "bob".
Proof.
  split; [discriminate|]. split.
  - exact (proj1 (get_collection_name_deterministic_injective "alice" "bob")).
  - apply (get_collection_name_deterministic_injective "alice" "bob").
    discriminate.
Defined.

End Naming.

(** ** The reflection parser *)

Section ParserFacts.
Import Parser.
Variable json_loads : string -> Exc json.

Lemma json_not_a_global : load_global memory_v2_globals "json" = Raise (NameError "json").
Proof. reflexivity. Qed.

(** C5. [memory_v2.py] never imports [json], so the name lookup in
    [json.loads(...)] raises [NameError] inside the [try]; the handler
    turns it into the error draft.  Hence the parser never raises, but it
    returns the error draft for every response, valid JSON included. *)
Theorem parse_always_error_draft (text : string) :
  parse json_loads text =
  JObj [ ("error", JStr "解析失败: name 'json' is not defined");
         ("raw", JStr text) ].
Proof.
  unfold parse, parse_in.
  rewrite json_not_a_global.
  unfold try_except, error_draft, str_exn. simpl.
  reflexivity.
Qed.

(** With [json] bound, the same body returns what [json.loads] makes of the
    text between the first opening and the last closing brace, and the
    error draft when [json.loads] raises. *)
Lemma parse_in_json_bound (globals : list string) (text : string) :
  "json" ∈ globals ->
  parse_in json_loads globals text =
  match json_loads (PyStr.slice text (PyStr.find "{" text)
                      (PyStr.rfind "}" text + 1)) with
  | Ok v => v
  | Raise e => error_draft e text
  end.
Proof.
  intros Hin. unfold parse_in, load_global.
  now rewrite decide_True by assumption.
Qed.

End ParserFacts.

(** The response [{}] is a valid JSON object; the parser as written answers
    with the error draft all the same. *)
Example parse_empty_object :
  Parser.parse (fun _ => Ok (JObj [])) "{}" =
  JObj [ ("error", JStr "解析失败: name 'json' is not defined");
         ("raw", JStr "{}") ].
Proof. reflexivity. Qed.

(** Without an opening brace the slice starts at index [-1]. *)
Example slice_without_opening_brace :
  PyStr.slice "no json here}" (PyStr.find "{" "no json here}")
    (PyStr.rfind "}" "no json here}" + 1) = "}".
Proof. reflexivity. Qed.

Example slice_around_object :
  PyStr.slice "Sure: {x} done" (PyStr.find "{" "Sure: {x} done")
    (PyStr.rfind "}" "Sure: {x} done" + 1) = "{x}".
Proof. reflexivity. Qed.

(** ** Insertion-ordered dictionaries *)

Section DictFacts.
Context {V : Type}.
Implicit Types (d : dict V) (k : string) (v : V).

Lemma dict_get_set_eq d k v : dict_get (dict_set d k v) k = Some v.
Proof.
  induction d as [|[k' v'] d IH]; simpl.
  - now rewrite String.eqb_refl.
  - destruct (String.eqb k' k) eqn:E; simpl; rewrite E; auto.
Qed.

Lemma dict_get_set_ne d k k' v :
  k <> k' -> dict_get (dict_set d k v) k' = dict_get d k'.
Proof.
  intros Hne. induction d as [|[k0 v0] d IH]; simpl.
  - destruct (String.eqb_spec k k'); congruence.
  - destruct (String.eqb_spec k0 k) as [->|Hk]; simpl.
    + destruct (String.eqb_spec k k'); congruence.
    + now rewrite IH.
Qed.

Lemma dict_get_None d k : dict_get d k = None <-> k ∉ dict_keys d.
Proof.
  unfold dict_keys. induction d as [|[k' v'] d IH]; simpl.
  - split; [intros _; apply not_elem_of_nil|auto].
  - rewrite not_elem_of_cons. destruct (String.eqb_spec k' k) as [->|Hk].
    + split; [discriminate|]. intros [H _]. now destruct H.
    + rewrite IH. split; [intros H; split; [congruence|assumption]|tauto].
Qed.

Lemma dict_get_Some_elem d k v : dict_get d k = Some v -> (k, v) ∈ d.
Proof.
  induction d as [|[k' v'] d IH]; simpl; [discriminate|].
  destruct (String.eqb_spec k' k) as [->|Hk].
  - intros [= ->]. apply list_elem_of_here.
  - intros H. apply list_elem_of_further. auto.
Qed.

Lemma dict_get_is_Some d k : is_Some (dict_get d k) <-> k ∈ dict_keys d.
Proof.
  rewrite <- not_eq_None_Some, dict_get_None.
  split; [apply dec_stable|auto].
Qed.

Lemma dict_keys_set_present d k v :
  k ∈ dict_keys d -> dict_keys (dict_set d k v) = dict_keys d.
Proof.
  unfold dict_keys. induction d as [|[k' v'] d IH]; simpl.
  - intros H. now apply elem_of_nil in H.
  - intros Hin. destruct (String.eqb_spec k' k) as [->|Hk]; simpl.
    + reflexivity.
    + f_equal. apply IH.
      apply elem_of_cons in Hin as [Heq|?]; [simpl in Heq; congruence|done].
Qed.

Lemma dict_keys_set_absent d k v :
  k ∉ dict_keys d -> dict_keys (dict_set d k v) = dict_keys d ++ [k].
Proof.
  unfold dict_keys. induction d as [|[k' v'] d IH]; simpl; [reflexivity|].
  rewrite not_elem_of_cons. intros [Hne Hin].
  destruct (String.eqb_spec k' k) as [->|Hk]; simpl; [congruence|].
  f_equal. now apply IH.
Qed.

Lemma dict_keys_set_elem d k v k' :
  k' ∈ dict_keys (dict_set d k v) <-> k' = k \/ k' ∈ dict_keys d.
Proof.
  destruct (decide (k ∈ dict_keys d)) as [Hin|Hin].
  - rewrite dict_keys_set_present by assumption.
    split; [auto|]. intros [->|H]; assumption.
  - rewrite dict_keys_set_absent by assumption.
    rewrite elem_of_app, list_elem_of_singleton. tauto.
Qed.

Lemma dict_keys_set_NoDup d k v :
  NoDup (dict_keys d) -> NoDup (dict_keys (dict_set d k v)).
Proof.
  intros Hnd. destruct (decide (k ∈ dict_keys d)) as [Hin|Hin].
  - now rewrite dict_keys_set_present.
  - rewrite dict_keys_set_absent by assumption.
    apply NoDup_app. split; [assumption|]. split; [|apply NoDup_singleton].
    intros x Hx Hk. apply list_elem_of_singleton in Hk. congruence.
Qed.

(** With distinct keys, the values held are exactly those looked up. *)
Lemma dict_values_elem d v :
  NoDup (dict_keys d) ->
  v ∈ dict_values d <-> exists k, dict_get d k = Some v.
Proof.
  unfold dict_keys, dict_values.
  induction d as [|[k' v'] d IH]; simpl; intros Hnd.
  - split; [intros H; now apply elem_of_nil in H|]. intros [k H]. discriminate.
  - apply NoDup_cons in Hnd as [Hnotin Hnd]. rewrite elem_of_cons. split.
    + intros [->|Hin].
      * exists k'. now rewrite String.eqb_refl.
      * apply IH in Hin as [k Hk]; [|assumption]. exists k.
        destruct (String.eqb_spec k' k) as [->|Hne]; [|assumption].
        exfalso. apply Hnotin. apply dict_get_Some_elem in Hk.
        apply list_elem_of_fmap. now exists (k, v).
    + intros [k Hk]. destruct (String.eqb_spec k' k) as [->|Hne].
      * left. congruence.
      * right. apply IH; eauto.
Qed.

End DictFacts.

(** ** The stable descending sort *)

Section SortFacts.
Import Ranker.
Context {A : Type}.
Implicit Types (key : A -> Q) (l : list A).


Lemma insert_desc_perm key x l : insert_desc key x l ≡ₚ x :: l.
Proof.
  induction l as [|y l IH]; simpl; [reflexivity|].
  destruct (Qle_bool (key y) (key x)); [reflexivity|].
  rewrite IH. apply Permutation_swap.
Qed.

Lemma sorted_reverse_perm key l : sorted_reverse key l ≡ₚ l.
Proof.
  induction l as [|x l IH]; simpl; [reflexivity|].
  now rewrite insert_desc_perm, IH.
Qed.





(** The sort depends on the keys only up to [Qeq]. *)
Lemma insert_desc_ext key key' x l :
  (forall y, key y == key' y) -> insert_desc key x l = insert_desc key' x l.
Proof.
  intros Hk. induction l as [|y l IH]; simpl; [reflexivity|].
  rewrite IH.
  assert (Qle_bool (key y) (key x) = Qle_bool (key' y) (key' x)) as ->.
  { apply eq_true_iff_eq. rewrite !Qle_bool_iff. now rewrite !Hk. }
  reflexivity.
Qed.

Lemma sorted_reverse_ext key key' l :
  (forall y, key y == key' y) -> sorted_reverse key l = sorted_reverse key' l.
Proof.
  intros Hk. induction l as [|x l IH]; simpl; [reflexivity|].
  rewrite IH. now apply insert_desc_ext.
Qed.

End SortFacts.

(** ** The two passes of the ranker *)

Section RankerFacts.
Import Ranker.
Open Scope Q_scope.
Implicit Types (l Sr Kr : list Item) (ident k : string) (alpha : Q).

Lemma foldl_last_with_id ident l (found : option Item) :
  foldl (fun found x => if String.eqb (item_id x) ident then Some x else found)
        found l
  = match last_with_id ident l with
    | Some x => Some x
    | None => found
    end.
Proof.
  unfold last_with_id. revert found.
  induction l as [|x l IH]; intros found; simpl; [reflexivity|].
  rewrite IH. rewrite (IH (if String.eqb (item_id x) ident then _ else _)).
  destruct (foldl _ None l); [reflexivity|].
  now destruct (String.eqb (item_id x) ident).
Qed.

Lemma last_with_id_cons ident x l :
  last_with_id ident (x :: l)
  = match last_with_id ident l with
    | Some y => Some y
    | None => if String.eqb (item_id x) ident then Some x else None
    end.
Proof. unfold last_with_id at 1. simpl. apply foldl_last_with_id. Qed.

Lemma last_with_id_app ident l1 l2 :
  last_with_id ident (l1 ++ l2)
  = match last_with_id ident l2 with
    | Some y => Some y
    | None => last_with_id ident l1
    end.
Proof.
  unfold last_with_id at 1. rewrite foldl_app. apply foldl_last_with_id.
Qed.

Lemma last_with_id_Some ident l x :
  last_with_id ident l = Some x -> x ∈ l /\ item_id x = ident.
Proof.
  induction l as [|y l IH]; [discriminate|].
  rewrite last_with_id_cons, elem_of_cons.
  destruct (last_with_id ident l) as [z|].
  - intros [= ->]. destruct IH as [? ?]; auto.
  - destruct (String.eqb_spec (item_id y) ident); [|discriminate].
    intros [= ->]. auto.
Qed.

Lemma last_with_id_None ident l :
  last_with_id ident l = None <-> ident ∉ ids l.
Proof.
  unfold ids. induction l as [|y l IH].
  - split; [intros _; apply not_elem_of_nil|reflexivity].
  - rewrite last_with_id_cons, fmap_cons, not_elem_of_cons, <- IH.
    destruct (last_with_id ident l) as [z|].
    + split; [discriminate|]. intros [_ H]. discriminate.
    + destruct (String.eqb_spec (item_id y) ident) as [E|E].
      * split; [discriminate|]. intros [H _]. congruence.
      * split; [|reflexivity]. intros _. split; [congruence|reflexivity].
Qed.

Lemma last_with_id_is_Some ident l :
  ident ∈ ids l -> exists x, last_with_id ident l = Some x.
Proof.
  intros Hin. destruct (last_with_id ident l) as [x|] eqn:E; [eauto|].
  now apply last_with_id_None in E.
Qed.

(** Filling a dictionary keyed by id: each id ends up with the value of
    the last item carrying it. *)
Lemma foldl_dict_set_get {V} (val : Item -> V) l (d : dict V) k :
  dict_get (foldl (fun d x => dict_set d (item_id x) (val x)) d l) k
  = match last_with_id k l with
    | Some x => Some (val x)
    | None => dict_get d k
    end.
Proof.
  revert d. induction l as [|x l IH]; intros d; simpl; [reflexivity|].
  rewrite IH, last_with_id_cons.
  destruct (last_with_id k l); [reflexivity|].
  destruct (String.eqb_spec (item_id x) k) as [<-|Hne].
  - apply dict_get_set_eq.
  - now apply dict_get_set_ne.
Qed.

Lemma foldl_dict_set_keys_elem {V} (val : Item -> V) l (d : dict V) k :
  k ∈ dict_keys (foldl (fun d x => dict_set d (item_id x) (val x)) d l)
  <-> k ∈ dict_keys d \/ k ∈ ids l.
Proof.
  unfold ids. revert d. induction l as [|x l IH]; intros d; simpl.
  - rewrite elem_of_nil. tauto.
  - rewrite IH, dict_keys_set_elem, elem_of_cons. tauto.
Qed.

Lemma foldl_dict_set_keys_NoDup {V} (val : Item -> V) l (d : dict V) :
  NoDup (dict_keys d) ->
  NoDup (dict_keys (foldl (fun d x => dict_set d (item_id x) (val x)) d l)).
Proof.
  revert d. induction l as [|x l IH]; intros d Hnd; simpl; [assumption|].
  apply IH. now apply dict_keys_set_NoDup.
Qed.


(** *** The scores *)

Lemma vector_scores_get alpha Sr k :
  dict_get (vector_scores alpha Sr) k
  = match last_with_id k Sr with
    | Some x => Some (alpha * (1 - item_score x))
    | None => None
    end.
Proof.
  unfold vector_scores.
  apply (foldl_dict_set_get (fun x => alpha * (1 - item_score x))).
Qed.

Lemma vector_scores_default alpha Sr k :
  dict_get_default (vector_scores alpha Sr) k 0 = sim_contribution alpha Sr k.
Proof.
  unfold dict_get_default, sim_contribution. rewrite vector_scores_get.
  now destruct (last_with_id k Sr).
Qed.

(** Inside the loop the list is not empty, so the division is defined. *)
Lemma keyword_term_ok alpha idx n :
  n <> 0%nat ->
  keyword_term alpha idx n = Ok ((1 - alpha) * rank_score (S idx) n).
Proof.
  intros Hn. unfold keyword_term, bm25_score, py_truediv, rank_score.
  destruct (Z.eqb_spec (Z.of_nat n) 0) as [E|_]; [lia|].
  simpl. now rewrite Nat2Z.inj_succ, <- Z.add_1_r.
Qed.

Lemma dict_get_default_set_eq (d : dict Q) k v :
  dict_get_default (dict_set d k v) k 0 = v.
Proof. unfold dict_get_default. now rewrite dict_get_set_eq. Qed.

Lemma dict_get_default_set_ne (d : dict Q) k k' v :
  k <> k' -> dict_get_default (dict_set d k v) k' 0 = dict_get_default d k' 0.
Proof. intros. unfold dict_get_default. now rewrite dict_get_set_ne. Qed.

(** The second pass never raises, and adds to each id the terms of its
    positions in the keyword results. *)
Lemma keyword_scores_spec alpha n Kr :
  forall idx (scores : dict Q),
    (n <> 0%nat \/ Kr = []) ->
    exists scores',
      keyword_scores alpha n idx Kr scores = Ok scores' /\
      forall k, dict_get_default scores' k 0
                == dict_get_default scores k 0
                   + keyword_sum alpha n (S idx) Kr k.
Proof.
  induction Kr as [|x Kr IH]; intros idx scores Hn; simpl.
  - exists scores. split; [reflexivity|]. intros k. ring.
  - destruct Hn as [Hn|Hn]; [|discriminate].
    rewrite keyword_term_ok by assumption. simpl.
    set (term := (1 - alpha) * rank_score (S idx) n).
    set (scores1 := match dict_get scores (item_id x) with
                    | Some s => dict_set scores (item_id x) (s + term)
                    | None => dict_set scores (item_id x) term
                    end).
    destruct (IH (S idx) scores1) as (scores' & Hrun & Hval); [now left|].
    exists scores'. split; [exact Hrun|]. intros k. rewrite Hval.
    assert (dict_get_default scores1 k 0
            == dict_get_default scores k 0
               + (if String.eqb (item_id x) k then term else 0)) as ->; [|ring].
    subst scores1. destruct (String.eqb_spec (item_id x) k) as [<-|Hne].
    + unfold dict_get_default at 2.
      destruct (dict_get scores (item_id x)) as [s|];
        rewrite dict_get_default_set_eq; ring.
    + destruct (dict_get scores (item_id x));
        rewrite dict_get_default_set_ne by assumption; ring.
Qed.

Lemma length_nonzero_or_nil Kr : length Kr <> 0%nat \/ Kr = [].
Proof. destruct Kr; [now right|now left]. Qed.

(** [hybrid_merge]'s [scores] dictionary holds, for every id, the fused
    score of the specification. *)
Lemma merge_scores_spec alpha Sr Kr :
  exists scores,
    merge_scores alpha Sr Kr = Ok scores /\
    forall k, dict_get_default scores k 0 == fused_score alpha Sr Kr k.
Proof.
  unfold merge_scores.
  destruct (keyword_scores_spec alpha (length Kr) Kr 0%nat
              (vector_scores alpha Sr) (length_nonzero_or_nil Kr))
    as (scores & Hrun & Hval).
  exists scores. split; [exact Hrun|]. intros k.
  rewrite Hval, vector_scores_default. reflexivity.
Qed.

(** *** The union of the two result lists *)

Lemma all_items_get Sr Kr k :
  dict_get (all_items Sr Kr) k = last_with_id k (Sr ++ Kr).
Proof.
  unfold all_items. rewrite (foldl_dict_set_get (fun x => x)). simpl.
  now destruct (last_with_id k (Sr ++ Kr)).
Qed.

Lemma all_items_keys_NoDup Sr Kr : NoDup (dict_keys (all_items Sr Kr)).
Proof.
  unfold all_items. apply (foldl_dict_set_keys_NoDup (fun x => x)).
  apply NoDup_nil_2.
Qed.

Lemma all_items_keys_elem Sr Kr k :
  k ∈ dict_keys (all_items Sr Kr) <-> k ∈ ids (Sr ++ Kr).
Proof.
  unfold all_items. rewrite (foldl_dict_set_keys_elem (fun x => x)).
  simpl. rewrite elem_of_nil. tauto.
Qed.


(** Every value is stored under its own id. *)
Lemma dict_set_own_id (d : dict Item) x :
  Forall (fun kv => item_id kv.2 = kv.1) d ->
  Forall (fun kv => item_id kv.2 = kv.1) (dict_set d (item_id x) x).
Proof.
  induction d as [|[k v] d IH]; simpl; intros H.
  - now repeat constructor.
  - apply Forall_cons in H as [Hkv Hd].
    destruct (String.eqb_spec k (item_id x)) as [->|Hne].
    + now constructor.
    + constructor; auto.
Qed.

Lemma all_items_values_ids Sr Kr :
  ids (dict_values (all_items Sr Kr)) = dict_keys (all_items Sr Kr).
Proof.
  assert (Forall (fun kv => item_id kv.2 = kv.1) (all_items Sr Kr)) as H.
  { unfold all_items. generalize (@nil (string * Item)) (Forall_nil_2
      (fun kv : string * Item => item_id kv.2 = kv.1)).
    induction (Sr ++ Kr) as [|x l IH]; intros d Hd; simpl; [assumption|].
    apply IH. now apply dict_set_own_id. }
  unfold ids, dict_values, dict_keys.
  induction H as [|[k v] d Hkv Hd IH]; [reflexivity|].
  rewrite !fmap_cons. simpl in *. now f_equal.
Qed.

(** *** The fused list *)

(** [hybrid_merge] never raises: its result is the stable descending sort,
    by fused score, of the union in encounter order. *)
Lemma hybrid_merge_fused alpha Sr Kr :
  hybrid_merge Sr Kr alpha
  = Ok (sorted_reverse (fused_key alpha Sr Kr)
          (dict_values (all_items Sr Kr))).
Proof.
  unfold hybrid_merge.
  destruct (merge_scores_spec alpha Sr Kr) as (scores & -> & Hval). simpl.
  f_equal. apply sorted_reverse_ext. intros x. apply Hval.
Qed.

Lemma with_id_absent ident l : ident ∉ ids l -> with_id ident l = [].
Proof.
  unfold ids, with_id. induction l as [|y l IH]; [reflexivity|].
  rewrite fmap_cons, not_elem_of_cons. intros [Hne H].
  rewrite filter_cons_False by congruence. auto.
Qed.

Lemma with_id_singleton l x :
  NoDup (ids l) -> x ∈ l -> with_id (item_id x) l = [x].
Proof.
  induction l as [|y l IH]; intros Hnd Hin.
  - now apply elem_of_nil in Hin.
  - unfold ids in Hnd. rewrite fmap_cons in Hnd.
    apply NoDup_cons in Hnd as [Hy Hnd].
    unfold with_id. rewrite filter_cons.
    apply elem_of_cons in Hin as [->|Hin].
    + rewrite decide_True by reflexivity. f_equal.
      now apply with_id_absent.
    + rewrite decide_False; [now apply IH|].
      intros E. apply Hy. rewrite E. now apply list_elem_of_fmap_2.
Qed.

End RankerFacts.

(** ** The hybrid ranker: fusion, order, deduplication *)

Section Fusion.
Import Ranker.
Open Scope Q_scope.
Implicit Types (Sr Kr : list Item) (ident : string) (alpha : Q).

(** The union holds each id once and [hybrid_merge] only reorders it. *)
Lemma hybrid_merge_ids_NoDup alpha Sr Kr :
  NoDup (ids (sorted_reverse (fused_key alpha Sr Kr)
                (dict_values (all_items Sr Kr)))).
Proof.
  unfold ids. rewrite sorted_reverse_perm.
  fold (ids (dict_values (all_items Sr Kr))).
  rewrite all_items_values_ids. apply all_items_keys_NoDup.
Qed.

(** The one item of the fused list that carries a given id is the last
    item with this id in [vector_res + keyword_res]. *)
Lemma hybrid_merge_with_id alpha Sr Kr ident x :
  last_with_id ident (Sr ++ Kr) = Some x ->
  with_id ident (sorted_reverse (fused_key alpha Sr Kr)
                   (dict_values (all_items Sr Kr))) = [x].
Proof.
  intros Hlast.
  destruct (last_with_id_Some _ _ _ Hlast) as [_ <-].
  apply with_id_singleton; [apply hybrid_merge_ids_NoDup|].
  rewrite sorted_reverse_perm.
  apply dict_values_elem; [apply all_items_keys_NoDup|].
  exists (item_id x). now rewrite all_items_get.
Qed.


(** With ids unique within each list, as a store returns them, the two
    contributions are the single terms the rule names. *)
Lemma sim_contribution_unique alpha Sr x :
  NoDup (ids Sr) -> x ∈ Sr ->
  sim_contribution alpha Sr (item_id x) = alpha * (1 - item_score x).
Proof.
  intros Hnd Hin. unfold sim_contribution.
  destruct (last_with_id_is_Some (item_id x) Sr) as [y Hy].
  { now apply list_elem_of_fmap_2. }
  rewrite Hy. apply last_with_id_Some in Hy as [Hy Hid].
  pose proof (with_id_singleton Sr x Hnd Hin) as Hx.
  pose proof (with_id_singleton Sr y Hnd Hy) as Hy'.
  rewrite Hid in Hy'. congruence.
Qed.

Lemma sim_contribution_absent alpha Sr ident :
  ident ∉ ids Sr -> sim_contribution alpha Sr ident = 0.
Proof.
  intros H. apply last_with_id_None in H. unfold sim_contribution.
  now rewrite H.
Qed.

Lemma keyword_sum_absent alpha n pos Kr ident :
  ident ∉ ids Kr -> keyword_sum alpha n pos Kr ident == 0.
Proof.
  unfold ids. revert pos. induction Kr as [|y Kr IH]; intros pos; simpl.
  - reflexivity.
  - rewrite not_elem_of_cons. intros [Hne H].
    destruct (String.eqb_spec (item_id y) ident); [congruence|].
    rewrite IH by assumption. ring.
Qed.

Lemma keyword_sum_unique alpha n pos Kr p x :
  NoDup (ids Kr) -> Kr !! p = Some x ->
  keyword_sum alpha n pos Kr (item_id x)
  == (1 - alpha) * rank_score (pos + p) n.
Proof.
  unfold ids. revert pos p. induction Kr as [|y Kr IH]; intros pos p Hnd Hp.
  - discriminate.
  - rewrite fmap_cons in Hnd. apply NoDup_cons in Hnd as [Hy Hnd]. simpl.
    destruct p as [|p]; simpl in Hp.
    + injection Hp as ->. rewrite String.eqb_refl, Nat.add_0_r.
      rewrite keyword_sum_absent by assumption. ring.
    + destruct (String.eqb_spec (item_id y) (item_id x)) as [E|_].
      * exfalso. apply Hy. rewrite E.
        apply list_elem_of_fmap_2. now apply list_elem_of_lookup_2 with p.
      * rewrite (IH (S pos) p Hnd Hp).
        replace (S pos + p)%nat with (pos + S p)%nat by lia. ring.
Qed.

Lemma keyword_contribution_unique alpha Kr p x :
  NoDup (ids Kr) -> Kr !! p = Some x ->
  keyword_contribution alpha Kr (item_id x)
  == (1 - alpha) * rank_score (S p) (length Kr).
Proof. intros. unfold keyword_contribution. now rewrite keyword_sum_unique. Qed.

(** C2. An id found in both result lists is carried by exactly one item
    of the fused list, and its score is the sum of the similarity
    contribution of its similarity-path item and of its keyword
    contribution. *)
Theorem shared_item_once_with_summed_score Sr Kr alpha ident :
  ident ∈ ids Sr -> ident ∈ ids Kr ->
  exists scores out x,
    merge_scores alpha Sr Kr = Ok scores /\
    hybrid_merge Sr Kr alpha = Ok out /\
    length (with_id ident out) = 1%nat /\
    last_with_id ident Sr = Some x /\
    sim_contribution alpha Sr ident = alpha * (1 - item_score x) /\
    dict_get_default scores ident 0
    == sim_contribution alpha Sr ident + keyword_contribution alpha Kr ident.
Proof.
  intros HS HK.
  destruct (merge_scores_spec alpha Sr Kr) as (scores & Hrun & Hval).
  destruct (last_with_id_is_Some ident Sr HS) as [x Hx].
  destruct (last_with_id_is_Some ident Kr HK) as [y Hy].
  exists scores, (sorted_reverse (fused_key alpha Sr Kr)
                    (dict_values (all_items Sr Kr))), x.
  split; [exact Hrun|]. split; [apply hybrid_merge_fused|].
  split.
  { rewrite (hybrid_merge_with_id alpha Sr Kr ident y); [reflexivity|].
    now rewrite last_with_id_app, Hy. }
  split; [exact Hx|].
  split; [unfold sim_contribution; now rewrite Hx|].
  apply Hval.
Qed.

Lemma shared_item_once_with_summed_score_witness :
  "b" ∈ ids [sim_a; sim_b] /\ "b" ∈ ids [kw_c; kw_b] /\
  exists scores out x,
    merge_scores (1 # 2) [sim_a; sim_b] [kw_c; kw_b] = Ok scores /\
    hybrid_merge [sim_a; sim_b] [kw_c; kw_b] (1 # 2) = Ok out /\
    length (with_id "b" out) = 1%nat /\
    last_with_id "b" [sim_a; sim_b] = Some x /\
    sim_contribution (1 # 2) [sim_a; sim_b] "b"
    = (1 # 2) * (1 - item_score x) /\
    dict_get_default scores "b" 0
    == sim_contribution (1 # 2) [sim_a; sim_b] "b"
       + keyword_contribution (1 # 2) [kw_c; kw_b] "b".
Proof.
  assert ("b" ∈ ids [sim_a; sim_b]) as H1 by by_decide.
  assert ("b" ∈ ids [kw_c; kw_b]) as H2 by by_decide.
  split; [exact H1|]. split; [exact H2|].
  exact (shared_item_once_with_summed_score
           [sim_a; sim_b] [kw_c; kw_b] (1 # 2) "b" H1 H2).
Defined.

(** C10. For an id found in both result lists, the item of the fused list
    is the record of the keyword path (the last one with this id there):
    in the union keyed by id it has replaced the similarity-path point.
    The score of the id combines both paths all the same. *)
Theorem shared_item_is_keyword_record Sr Kr alpha ident :
  ident ∈ ids Sr -> ident ∈ ids Kr ->
  exists scores out x,
    merge_scores alpha Sr Kr = Ok scores /\
    hybrid_merge Sr Kr alpha = Ok out /\
    last_with_id ident Kr = Some x /\
    x ∈ Kr /\
    dict_get (all_items Sr Kr) ident = Some x /\
    with_id ident out = [x] /\
    dict_get_default scores ident 0
    == sim_contribution alpha Sr ident + keyword_contribution alpha Kr ident.
Proof.
  intros HS HK.
  destruct (merge_scores_spec alpha Sr Kr) as (scores & Hrun & Hval).
  destruct (last_with_id_is_Some ident Kr HK) as [x Hx].
  assert (last_with_id ident (Sr ++ Kr) = Some x) as Hlast.
  { now rewrite last_with_id_app, Hx. }
  exists scores, (sorted_reverse (fused_key alpha Sr Kr)
                    (dict_values (all_items Sr Kr))), x.
  split; [exact Hrun|]. split; [apply hybrid_merge_fused|].
  split; [exact Hx|].
  split; [now apply last_with_id_Some in Hx|].
  split; [now rewrite all_items_get|].
  split; [now apply hybrid_merge_with_id|].
  apply Hval.
Qed.

Lemma shared_item_is_keyword_record_witness :
  "b" ∈ ids [sim_a; sim_b] /\ "b" ∈ ids [kw_c; kw_b] /\
  exists scores out x,
    merge_scores (1 # 2) [sim_a; sim_b] [kw_c; kw_b] = Ok scores /\
    hybrid_merge [sim_a; sim_b] [kw_c; kw_b] (1 # 2) = Ok out /\
    last_with_id "b" [kw_c; kw_b] = Some x /\
    x ∈ [kw_c; kw_b] /\
    dict_get (all_items [sim_a; sim_b] [kw_c; kw_b]) "b" = Some x /\
    with_id "b" out = [x] /\
    dict_get_default scores "b" 0
    == sim_contribution (1 # 2) [sim_a; sim_b] "b"
       + keyword_contribution (1 # 2) [kw_c; kw_b] "b".
Proof.
  assert ("b" ∈ ids [sim_a; sim_b]) as H1 by by_decide.
  assert ("b" ∈ ids [kw_c; kw_b]) as H2 by by_decide.
  split; [exact H1|]. split; [exact H2|].
  exact (shared_item_is_keyword_record
           [sim_a; sim_b] [kw_c; kw_b] (1 # 2) "b" H1 H2).
Defined.

Example first_seen_sample :
  first_seen (ids ([sim_a; sim_b] ++ [kw_c; kw_b])) = ["a"; "b"; "c"].
Proof. reflexivity. Qed.

(** Equal keys keep their order; larger keys come first. *)
Example sorted_reverse_sample :
  sorted_reverse item_score [kw_c; sim_a; kw_b; sim_b; sim_a]
  = [sim_b; sim_a; sim_a; kw_c; kw_b].
Proof. reflexivity. Qed.

(** The fused list of the sample: [b] comes first and is the keyword
    record. *)
Example hybrid_merge_sample :
  hybrid_merge [sim_a; sim_b] [kw_c; kw_b] (1 # 2)
  = Ok [kw_b; sim_a; kw_c].
Proof. reflexivity. Qed.


End Fusion.

(** ** Retrieval: truncation to the top three *)

Section RecallFacts.
Import Ranker.
Open Scope Q_scope.
Variable embed_query : string -> Exc (list Q).
Variable search : string -> list Q -> nat -> Exc (list Item).
Variable scroll : string -> TextFilter -> nat -> Exc (list Item).



End RecallFacts.


(** ** Keyword contribution by rank *)

Section RankFacts.
Import Ranker.
Open Scope Q_scope.

Lemma rank_score_lt (p p' n : nat) :
  (p < p')%nat -> (0 < n)%nat -> rank_score p n < rank_score p' n.
Proof.
  intros Hp Hn. unfold rank_score, Qdiv.
  apply Qmult_lt_compat_r.
  - apply Qinv_lt_0_compat. rewrite <- (Zlt_Qlt 0). lia.
  - rewrite <- Zlt_Qlt. lia.
Qed.

(** C7, as the code has it.  For [alpha < 1] the keyword contribution
    grows with the position: of two items of the keyword results, the
    earlier one receives strictly less than the later one. *)
Theorem keyword_term_grows_with_rank (Kr : list Item) (alpha : Q)
    (i j : nat) :
  (2 <= length Kr)%nat -> alpha < 1 ->
  (i < j)%nat -> (j < length Kr)%nat ->
  exists ci cj,
    keyword_term alpha i (length Kr) = Ok ci /\
    keyword_term alpha j (length Kr) = Ok cj /\
    ci < cj.
Proof.
  intros Hlen Halpha Hij Hj.
  exists ((1 - alpha) * rank_score (S i) (length Kr)),
         ((1 - alpha) * rank_score (S j) (length Kr)).
  split; [apply keyword_term_ok; lia|].
  split; [apply keyword_term_ok; lia|].
  apply Qmult_lt_l; [lra|]. apply rank_score_lt; lia.
Qed.

Lemma keyword_term_grows_with_rank_witness :
  (2 <= length [kw_c; kw_b])%nat /\ 0 < 1 /\
  (0 < 1)%nat /\ (1 < length [kw_c; kw_b])%nat /\
  exists ci cj,
    keyword_term 0 0 (length [kw_c; kw_b]) = Ok ci /\
    keyword_term 0 1 (length [kw_c; kw_b]) = Ok cj /\
    ci < cj.
Proof.
  assert ((2 <= length [kw_c; kw_b])%nat) as H1 by (simpl; lia).
  assert (0 < 1) as H2 by reflexivity.
  assert ((0 < 1)%nat) as H3 by lia.
  assert ((1 < length [kw_c; kw_b])%nat) as H4 by (simpl; lia).
  split; [exact H1|]. split; [exact H2|]. split; [exact H3|].
  split; [exact H4|].
  exact (keyword_term_grows_with_rank [kw_c; kw_b] 0 0 1 H1 H2 H3 H4).
Defined.

(** C7, as stated, fails: with two keyword results and [alpha = 0] the
    first one receives [1/2] and the second one [1], and the fused list
    puts the second one first. *)
Lemma keyword_decay_counterexample :
  keyword_term 0 0 (length [kw_c; kw_b]) = Ok ((1 - 0) * (1 # 2)) /\
  keyword_term 0 1 (length [kw_c; kw_b]) = Ok ((1 - 0) * (2 # 2)) /\
  ~ ((1 - 0) * (2 # 2) <= (1 - 0) * (1 # 2)) /\
  hybrid_merge [] [kw_c; kw_b] 0 = Ok [kw_b; kw_c] /\
  ~ (forall (Kr : list Item) (alpha : Q) (i j : nat) (ci cj : Q),
        (2 <= length Kr)%nat -> alpha < 1 ->
        (i < j)%nat -> (j < length Kr)%nat ->
        keyword_term alpha i (length Kr) = Ok ci ->
        keyword_term alpha j (length Kr) = Ok cj ->
        cj <= ci).
Proof.
  split; [reflexivity|]. split; [reflexivity|].
  split; [intros H; vm_compute in H; now apply H|].
  split; [reflexivity|].
  intros H.
  specialize (H [kw_c; kw_b] 0 0%nat 1%nat
                ((1 - 0) * (1 # 2)) ((1 - 0) * (2 # 2))).
  assert ((1 - 0) * (2 # 2) <= (1 - 0) * (1 # 2)) as Hle.
  { apply H; try reflexivity; simpl; lia. }
  vm_compute in Hle. now apply Hle.
Qed.

End RankFacts.

(** ** The write path *)

Section WriteFacts.
Import Store.
Variable reflect : string -> Exc json.
Variable requests_post : string -> json -> Exc Response.
Variable uuid4 : nat -> string.

Lemma collection_exists_present (w : World) name pts :
  collections w !! name = Some pts ->
  collection_exists name w = (Ok true, w).
Proof. intros E. unfold collection_exists. now rewrite E. Qed.

Lemma collection_exists_absent (w : World) name :
  collections w !! name = None ->
  collection_exists name w = (Ok false, w).
Proof. intros E. unfold collection_exists. now rewrite E. Qed.

(** The world after the existence check and the lazy creation. *)
Lemma ensure_collection (w : World) user_id :
  let name := Config.get_collection_name user_id in
  (present ← collection_exists name;
   if negb present then init_user_collection user_id else mret tt) w
  = (Ok tt,
     match collections w !! name with
     | Some _ => w
     | None => mkWorld (<[name := []]> (collections w)) (uuid_draws w)
     end).
Proof.
  intros name. unfold mbind, m_bind.
  destruct (collections w !! name) as [pts|] eqn:E.
  - now rewrite (collection_exists_present w name pts E).
  - now rewrite (collection_exists_absent w name E).
Qed.


Lemma embed_text_failure (text : json) (resp : Response) :
  requests_post embeddings_url (embed_request text) = Ok resp ->
  status_code resp <> 200%Z ->
  embed_text requests_post text = Raise (embed_failure (Store.text resp)).
Proof.
  intros Hpost Hstatus. unfold embed_text. rewrite Hpost. simpl.
  destruct (Z.eqb_spec (status_code resp) 200); [contradiction|reflexivity].
Qed.

Lemma embed_text_success (text : json) (resp : Response) (body : json) :
  requests_post embeddings_url (embed_request text) = Ok resp ->
  status_code resp = 200%Z ->
  response_json resp = Ok body ->
  embed_text requests_post text = json_get body "embedding" (JArr []).
Proof.
  intros Hpost Hstatus Hbody. unfold embed_text. rewrite Hpost. simpl.
  rewrite Hstatus, Hbody. reflexivity.
Qed.

(** The write up to the embedding call, when that call fails. *)
Lemma add_episodic_memory_embedding_failure
    (messages : list Message) (user_id : string) (w : World)
    (reflection summary : json) (resp : Response) :
  reflect (format_conversation messages) = Ok reflection ->
  json_get reflection "conversation_summary" (JStr "") = Ok summary ->
  requests_post embeddings_url (embed_request (JArr [summary])) = Ok resp ->
  status_code resp <> 200%Z ->
  add_episodic_memory reflect requests_post uuid4 messages user_id w
  = (Raise (embed_failure (text resp)),
     match collections w !! Config.get_collection_name user_id with
     | Some _ => w
     | None =>
         mkWorld (<[Config.get_collection_name user_id := []]> (collections w))
                 (uuid_draws w)
     end).
Proof.
  intros Hreflect Hsummary Hpost Hstatus.
  pose proof (embed_text_failure _ _ Hpost Hstatus) as Hembed.
  unfold add_episodic_memory, mbind, m_bind.
  destruct (collections w !! Config.get_collection_name user_id)
    as [pts|] eqn:E.
  - rewrite (collection_exists_present w _ pts E). simpl.
    unfold lift. rewrite Hreflect, Hsummary, Hembed. reflexivity.
  - rewrite (collection_exists_absent w _ E). simpl.
    unfold lift. rewrite Hreflect, Hsummary, Hembed. reflexivity.
Qed.

(** C6, as the code has it.  When the embedding endpoint answers the
    write's request with a status other than 200, the write raises an
    exception whose message ends with the raw response body, and no point
    is upserted: every collection holds the points it held, and no id has
    been drawn.  The one change left behind is the user's collection
    itself, created empty before the embedding call when it was absent. *)
Theorem embedding_failure_upserts_no_point
    (messages : list Message) (user_id : string) (w : World)
    (reflection summary : json) (resp : Response) :
  reflect (format_conversation messages) = Ok reflection ->
  json_get reflection "conversation_summary" (JStr "") = Ok summary ->
  requests_post embeddings_url (embed_request (JArr [summary])) = Ok resp ->
  status_code resp <> 200%Z ->
  exists w',
    add_episodic_memory reflect requests_post uuid4 messages user_id w
    = (Raise (embed_failure (text resp)), w') /\
    str_exn (embed_failure (text resp))
    = "Ollama API 请求失败: " +:+ text resp /\
    (forall c, points_of w' c = points_of w c) /\
    (forall c, c <> Config.get_collection_name user_id ->
               collections w' !! c = collections w !! c) /\
    collections w' !! Config.get_collection_name user_id
    = Some (points_of w (Config.get_collection_name user_id)) /\
    uuid_draws w' = uuid_draws w.
Proof.
  intros Hreflect Hsummary Hpost Hstatus.
  eexists. split.
  { now apply add_episodic_memory_embedding_failure with reflection summary. }
  split; [reflexivity|]. unfold points_of.
  destruct (collections w !! Config.get_collection_name user_id)
    as [pts|] eqn:E; simpl.
  - repeat split; auto.
  - split; [|split; [|split]].
    + intros c. destruct (decide (Config.get_collection_name user_id = c))
        as [<-|Hne].
      * now rewrite lookup_insert_eq, E.
      * now rewrite lookup_insert_ne.
    + intros c Hne. now rewrite lookup_insert_ne.
    + now rewrite lookup_insert_eq.
    + reflexivity.
Qed.


End WriteFacts.

Section WriteSamples.
Import Store.

Example format_conversation_sample :
  format_conversation sample_messages
  = "HUMAN: What is attention?" +:+ newline
    +:+ "AI: A weighting of values by query-key similarity.".
Proof. reflexivity. Qed.

Lemma embedding_failure_upserts_no_point_witness :
  exists w',
    add_episodic_memory sample_reflect failing_post sample_uuid4
      sample_messages "alice" empty_world
    = (Raise (embed_failure "model not found"), w') /\
    str_exn (embed_failure "model not found")
    = "Ollama API 请求失败: " +:+ "model not found" /\
    (forall c, points_of w' c = points_of empty_world c) /\
    (forall c, c <> Config.get_collection_name "alice" ->
               collections w' !! c = collections empty_world !! c) /\
    collections w' !! Config.get_collection_name "alice"
    = Some (points_of empty_world (Config.get_collection_name "alice")) /\
    uuid_draws w' = uuid_draws empty_world.
Proof.
  apply (embedding_failure_upserts_no_point
           sample_reflect failing_post sample_uuid4
           sample_messages "alice" empty_world
           (JObj [ ("context_tags", JArr [JStr "attention_mechanism"]);
                   ("conversation_summary", JStr "Explained attention.");
                   ("what_worked", JStr "A short definition.");
                   ("what_to_avoid", JStr "N/A") ])
           (JStr "Explained attention.")
           (mkResponse 500 "model not found"
              (Raise (JSONDecodeError "Expecting value")))).
  - reflexivity.
  - reflexivity.
  - reflexivity.
  - simpl. lia.
Defined.

(** C6, as stated, fails on the stored state: a write for a user without
    a collection, whose embedding call is answered with status 500, raises
    with the response body in the message and upserts no point, yet leaves
    the store with a collection it did not have. *)
Lemma failed_write_creates_collection :
  status_code (mkResponse 500 "model not found"
                 (Raise (JSONDecodeError "Expecting value"))) <> 200%Z /\
  (add_episodic_memory sample_reflect failing_post sample_uuid4
     sample_messages "alice" empty_world).1
  = Raise (Exception_ "Ollama API 请求失败: model not found") /\
  collections empty_world !! "memory_orb_alice" = None /\
  collections
    (add_episodic_memory sample_reflect failing_post sample_uuid4
       sample_messages "alice" empty_world).2 !! "memory_orb_alice"
  = Some [] /\
  collections
    (add_episodic_memory sample_reflect failing_post sample_uuid4
       sample_messages "alice" empty_world).2
  <> collections empty_world.
Proof.
  assert (add_episodic_memory sample_reflect failing_post sample_uuid4
            sample_messages "alice" empty_world
          = (Raise (Exception_ "Ollama API 请求失败: model not found"),
             mkWorld (<["memory_orb_alice" := []]> ∅) 0)) as ->.
  { rewrite (add_episodic_memory_embedding_failure
               sample_reflect failing_post sample_uuid4
               sample_messages "alice" empty_world
               (JObj [ ("context_tags", JArr [JStr "attention_mechanism"]);
                       ("conversation_summary", JStr "Explained attention.");
                       ("what_worked", JStr "A short definition.");
                       ("what_to_avoid", JStr "N/A") ])
               (JStr "Explained attention.")
               (mkResponse 500 "model not found"
                  (Raise (JSONDecodeError "Expecting value"))));
      try reflexivity.
    simpl. lia. }
  simpl. split; [lia|]. split; [reflexivity|].
  split; [apply lookup_empty|].
  split; [apply lookup_insert_eq|].
  intros H. apply (f_equal (fun m => m !! "memory_orb_alice")) in H.
  rewrite lookup_insert_eq, lookup_empty in H. discriminate.
Qed.


(** The first write for a user leaves one point in the user's collection. *)
Example first_write_stores_one_point :
  points_of
    (add_episodic_memory sample_reflect batch_post sample_uuid4
       sample_messages "alice" empty_world).2
    "memory_orb_alice"
  = [ mkPoint "point-0" (JArr [JNum (1 # 10); JNum (2 # 10)])
        (JObj [ ("conversation", JStr (format_conversation sample_messages));
                ("context_tags", JArr [JStr "attention_mechanism"]);
                ("conversation_summary", JStr "Explained attention.");
                ("what_worked", JStr "A short definition.");
                ("what_to_avoid", JStr "N/A") ]) ].
Proof. vm_compute. reflexivity. Qed.

End WriteSamples.

(** ** More on the hybrid ranker *)

Section RankerMore.
Import Ranker.
Open Scope Q_scope.
Implicit Types (Sr Kr : list Item) (ident : string) (alpha : Q).

Lemma all_items_value_from_inputs Sr Kr x :
  x ∈ dict_values (all_items Sr Kr) -> x ∈ Sr ++ Kr.
Proof.
  intros Hx. apply dict_values_elem in Hx as [k Hk];
    [|apply all_items_keys_NoDup].
  rewrite all_items_get in Hk. now apply last_with_id_Some in Hk.
Qed.

(** X1. The fused list neither invents nor loses anything: each of its
    items is an item of one of the two result lists, no id occurs twice,
    and every id of the two lists occurs. *)
Theorem hybrid_merge_covers_inputs Sr Kr alpha :
  exists out,
    hybrid_merge Sr Kr alpha = Ok out /\
    (forall x, x ∈ out -> x ∈ Sr ++ Kr) /\
    NoDup (ids out) /\
    (forall ident, ident ∈ ids out <-> ident ∈ ids (Sr ++ Kr)).
Proof.
  eexists. split; [apply hybrid_merge_fused|].
  split; [|split].
  - intros x. rewrite sorted_reverse_perm. apply all_items_value_from_inputs.
  - apply hybrid_merge_ids_NoDup.
  - intros ident. unfold ids at 1. rewrite sorted_reverse_perm.
    fold (ids (dict_values (all_items Sr Kr))).
    rewrite all_items_values_ids. apply all_items_keys_elem.
Qed.

(** X2. An id found only in the similarity results is carried by its
    similarity-path item, with no keyword share in its score. *)
Theorem similarity_only_item Sr Kr alpha ident :
  ident ∈ ids Sr -> ident ∉ ids Kr ->
  exists scores out x,
    merge_scores alpha Sr Kr = Ok scores /\
    hybrid_merge Sr Kr alpha = Ok out /\
    last_with_id ident Sr = Some x /\
    x ∈ Sr /\
    with_id ident out = [x] /\
    dict_get_default scores ident 0 == alpha * (1 - item_score x).
Proof.
  intros HS HK.
  destruct (merge_scores_spec alpha Sr Kr) as (scores & Hrun & Hval).
  destruct (last_with_id_is_Some ident Sr HS) as [x Hx].
  exists scores, (sorted_reverse (fused_key alpha Sr Kr)
                    (dict_values (all_items Sr Kr))), x.
  split; [exact Hrun|]. split; [apply hybrid_merge_fused|].
  split; [exact Hx|].
  split; [now apply last_with_id_Some in Hx|].
  split.
  - apply hybrid_merge_with_id. rewrite last_with_id_app.
    apply last_with_id_None in HK. now rewrite HK.
  - rewrite Hval. unfold fused_score, sim_contribution, keyword_contribution.
    rewrite Hx, keyword_sum_absent by assumption. ring.
Qed.

Lemma similarity_only_item_witness :
  "a" ∈ ids [sim_a; sim_b] /\ ("a" ∉ ids [kw_c; kw_b]) /\
  exists scores out x,
    merge_scores (1 # 2) [sim_a; sim_b] [kw_c; kw_b] = Ok scores /\
    hybrid_merge [sim_a; sim_b] [kw_c; kw_b] (1 # 2) = Ok out /\
    last_with_id "a" [sim_a; sim_b] = Some x /\
    x ∈ [sim_a; sim_b] /\
    with_id "a" out = [x] /\
    dict_get_default scores "a" 0 == (1 # 2) * (1 - item_score x).
Proof.
  assert ("a" ∈ ids [sim_a; sim_b]) as H1 by by_decide.
  assert ("a" ∉ ids [kw_c; kw_b]) as H2 by by_decide.
  split; [exact H1|]. split; [exact H2|].
  exact (similarity_only_item [sim_a; sim_b] [kw_c; kw_b] (1 # 2) "a" H1 H2).
Defined.

(** X3. An id found only in the keyword results gets a new entry: its
    item is the keyword record and its score is the keyword contribution
    alone. *)
Theorem keyword_only_item Sr Kr alpha ident :
  ident ∉ ids Sr -> ident ∈ ids Kr ->
  exists scores out x,
    merge_scores alpha Sr Kr = Ok scores /\
    hybrid_merge Sr Kr alpha = Ok out /\
    last_with_id ident Kr = Some x /\
    x ∈ Kr /\
    with_id ident out = [x] /\
    dict_get_default scores ident 0 == keyword_contribution alpha Kr ident.
Proof.
  intros HS HK.
  destruct (merge_scores_spec alpha Sr Kr) as (scores & Hrun & Hval).
  destruct (last_with_id_is_Some ident Kr HK) as [x Hx].
  exists scores, (sorted_reverse (fused_key alpha Sr Kr)
                    (dict_values (all_items Sr Kr))), x.
  split; [exact Hrun|]. split; [apply hybrid_merge_fused|].
  split; [exact Hx|].
  split; [now apply last_with_id_Some in Hx|].
  split.
  - apply hybrid_merge_with_id. now rewrite last_with_id_app, Hx.
  - rewrite Hval. unfold fused_score.
    rewrite sim_contribution_absent by assumption. ring.
Qed.

Lemma keyword_only_item_witness :
  ("c" ∉ ids [sim_a; sim_b]) /\ "c" ∈ ids [kw_c; kw_b] /\
  exists scores out x,
    merge_scores (1 # 2) [sim_a; sim_b] [kw_c; kw_b] = Ok scores /\
    hybrid_merge [sim_a; sim_b] [kw_c; kw_b] (1 # 2) = Ok out /\
    last_with_id "c" [kw_c; kw_b] = Some x /\
    x ∈ [kw_c; kw_b] /\
    with_id "c" out = [x] /\
    dict_get_default scores "c" 0
    == keyword_contribution (1 # 2) [kw_c; kw_b] "c".
Proof.
  assert ("c" ∉ ids [sim_a; sim_b]) as H1 by by_decide.
  assert ("c" ∈ ids [kw_c; kw_b]) as H2 by by_decide.
  split; [exact H1|]. split; [exact H2|].
  exact (keyword_only_item [sim_a; sim_b] [kw_c; kw_b] (1 # 2) "c" H1 H2).
Defined.

End RankerMore.

Section RankerWeights.
Import Ranker.
Open Scope Q_scope.
Implicit Types (Sr Kr : list Item) (ident : string) (alpha : Q).

Lemma keyword_sum_weight_one n pos Kr ident :
  keyword_sum 1 n pos Kr ident == 0.
Proof.
  revert pos. induction Kr as [|x Kr IH]; intros pos; simpl; [reflexivity|].
  rewrite IH. destruct (String.eqb (item_id x) ident); ring.
Qed.





Lemma rank_score_bounds (p n : nat) :
  (p < n)%nat -> 0 < rank_score (S p) n /\ rank_score (S p) n <= 1.
Proof.
  intros Hp. unfold rank_score.
  assert (0 < inject_Z (Z.of_nat n)) as Hn.
  { rewrite <- (Zlt_Qlt 0). lia. }
  split.
  - apply Qlt_shift_div_l; [exact Hn|]. rewrite Qmult_0_l.
    rewrite <- (Zlt_Qlt 0). lia.
  - apply Qle_shift_div_r; [exact Hn|]. rewrite Qmult_1_l.
    rewrite <- Zle_Qle. lia.
Qed.

Lemma keyword_contribution_bounds alpha Kr ident :
  alpha <= 1 -> NoDup (ids Kr) ->
  0 <= keyword_contribution alpha Kr ident /\
  keyword_contribution alpha Kr ident <= 1 - alpha.
Proof.
  intros Halpha Hnd.
  destruct (decide (ident ∈ ids Kr)) as [Hin|Hout].
  - apply list_elem_of_fmap in Hin as (x & -> & Hx).
    apply list_elem_of_lookup_1 in Hx as [p Hp].
    rewrite (keyword_contribution_unique alpha Kr p x Hnd Hp).
    destruct (rank_score_bounds p (length Kr)) as [Hlo Hhi].
    { now apply lookup_lt_Some in Hp. }
    split; nra.
  - unfold keyword_contribution. rewrite keyword_sum_absent by assumption.
    lra.
Qed.

End RankerWeights.

Section RankerBounds.
Import Ranker.
Open Scope Q_scope.
Implicit Types (Sr Kr : list Item) (ident : string) (alpha : Q).

Lemma sim_contribution_bounds alpha Sr ident :
  0 <= alpha -> alpha <= 1 ->
  Forall (fun x => 0 <= item_score x /\ item_score x <= 1) Sr ->
  0 <= sim_contribution alpha Sr ident /\
  sim_contribution alpha Sr ident <= alpha.
Proof.
  intros H0 H1 Hall. unfold sim_contribution.
  destruct (last_with_id ident Sr) as [x|] eqn:E; [|lra].
  apply last_with_id_Some in E as [Hx _].
  rewrite Forall_forall in Hall. destruct (Hall x Hx) as [Hlo Hhi].
  split; nra.
Qed.

(** X6. For a weight in [[0,1]], native scores in [[0,1]] and keyword
    results with distinct ids, every score of the [scores] dictionary lies
    in [[0,1]]: at most [alpha] from the similarity path and at most
    [1 - alpha] from the keyword path. *)
Theorem fused_scores_within_unit Sr Kr alpha :
  0 <= alpha -> alpha <= 1 ->
  Forall (fun x => 0 <= item_score x /\ item_score x <= 1) Sr ->
  NoDup (ids Kr) ->
  exists scores,
    merge_scores alpha Sr Kr = Ok scores /\
    forall ident,
      0 <= dict_get_default scores ident 0 /\
      dict_get_default scores ident 0 <= 1.
Proof.
  intros H0 H1 Hall Hnd.
  destruct (merge_scores_spec alpha Sr Kr) as (scores & Hrun & Hval).
  exists scores. split; [exact Hrun|]. intros ident. rewrite Hval.
  unfold fused_score.
  destruct (sim_contribution_bounds alpha Sr ident H0 H1 Hall).
  destruct (keyword_contribution_bounds alpha Kr ident H1 Hnd).
  split; lra.
Qed.

Lemma fused_scores_within_unit_witness :
  0 <= 1 # 2 /\ 1 # 2 <= 1 /\
  Forall (fun x => 0 <= item_score x /\ item_score x <= 1) [sim_a; sim_b] /\
  NoDup (ids [kw_c; kw_b]) /\
  exists scores,
    merge_scores (1 # 2) [sim_a; sim_b] [kw_c; kw_b] = Ok scores /\
    forall ident,
      0 <= dict_get_default scores ident 0 /\
      dict_get_default scores ident 0 <= 1.
Proof.
  assert (0 <= 1 # 2) as H0 by (unfold Qle; simpl; lia).
  assert (1 # 2 <= 1) as H1 by (unfold Qle; simpl; lia).
  assert (Forall (fun x => 0 <= item_score x /\ item_score x <= 1)
            [sim_a; sim_b]) as H2
    by (repeat constructor; unfold Qle; simpl; lia).
  assert (NoDup (ids [kw_c; kw_b])) as H3 by by_decide.
  split; [exact H0|]. split; [exact H1|]. split; [exact H2|].
  split; [exact H3|].
  exact (fused_scores_within_unit [sim_a; sim_b] [kw_c; kw_b] (1 # 2)
           H0 H1 H2 H3).
Defined.

(** X7. An id repeated in the similarity results is scored by its last
    item alone: the first loop assigns, it does not add, so earlier items
    with the same id leave no trace in the score. *)
Theorem repeated_similarity_id_last_wins alpha Sr1 Sr2 Kr (x : Item) :
  item_id x ∉ ids Sr2 ->
  exists scores,
    merge_scores alpha (Sr1 ++ x :: Sr2) Kr = Ok scores /\
    dict_get (vector_scores alpha (Sr1 ++ x :: Sr2)) (item_id x)
    = Some (alpha * (1 - item_score x)) /\
    dict_get_default scores (item_id x) 0
    == alpha * (1 - item_score x)
       + keyword_contribution alpha Kr (item_id x).
Proof.
  intros Hout.
  assert (last_with_id (item_id x) (Sr1 ++ x :: Sr2) = Some x) as Hlast.
  { rewrite last_with_id_app, last_with_id_cons.
    apply last_with_id_None in Hout. rewrite Hout.
    now rewrite String.eqb_refl. }
  destruct (merge_scores_spec alpha (Sr1 ++ x :: Sr2) Kr)
    as (scores & Hrun & Hval).
  exists scores. split; [exact Hrun|].
  split; [now rewrite vector_scores_get, Hlast|].
  rewrite Hval. unfold fused_score, sim_contribution. now rewrite Hlast.
Qed.

Lemma repeated_similarity_id_last_wins_witness :
  (item_id sim_b ∉ ids [sim_a]) /\
  exists scores,
    merge_scores (1 # 2) ([kw_b] ++ sim_b :: [sim_a]) [] = Ok scores /\
    dict_get (vector_scores (1 # 2) ([kw_b] ++ sim_b :: [sim_a]))
      (item_id sim_b)
    = Some ((1 # 2) * (1 - item_score sim_b)) /\
    dict_get_default scores (item_id sim_b) 0
    == (1 # 2) * (1 - item_score sim_b)
       + keyword_contribution (1 # 2) [] (item_id sim_b).
Proof.
  assert (item_id sim_b ∉ ids [sim_a]) as H by by_decide.
  split; [exact H|].
  exact (repeated_similarity_id_last_wins (1 # 2) [kw_b] [sim_a] [] sim_b H).
Defined.

End RankerBounds.

Section RankerOrder.
Import Ranker.
Open Scope Q_scope.
Implicit Types (Sr Kr : list Item) (ident : string) (alpha : Q).

Lemma dict_set_absent_app {V} (d : dict V) k v :
  k ∉ dict_keys d -> dict_set d k v = d ++ [(k, v)].
Proof.
  unfold dict_keys. induction d as [|[k' v'] d IH]; simpl; [reflexivity|].
  rewrite not_elem_of_cons. intros [Hne Hout].
  destruct (String.eqb_spec k' k); [congruence|]. now rewrite IH.
Qed.

(** Items with distinct, new ids are appended in their order. *)
Lemma foldl_dict_set_distinct l (d : dict Item) :
  NoDup (ids l) ->
  (forall k, k ∈ ids l -> k ∉ dict_keys d) ->
  foldl (fun d x => dict_set d (item_id x) x) d l
  = d ++ ((fun x => (item_id x, x)) <$> l).
Proof.
  unfold ids. revert d. induction l as [|x l IH]; intros d Hnd Hnew; simpl.
  - now rewrite app_nil_r.
  - rewrite fmap_cons in Hnd. apply NoDup_cons in Hnd as [Hx Hnd].
    rewrite dict_set_absent_app.
    2:{ apply Hnew. rewrite fmap_cons. apply list_elem_of_here. }
    rewrite IH; [now rewrite <- app_assoc|assumption|].
    intros k Hk. unfold dict_keys. rewrite fmap_app, elem_of_app.
    intros [Hd|Hkx].
    + apply (Hnew k); [|exact Hd]. rewrite fmap_cons.
      now apply list_elem_of_further.
    + simpl in Hkx. apply list_elem_of_singleton in Hkx. congruence.
Qed.

Lemma all_items_keyword_only Kr :
  NoDup (ids Kr) -> dict_values (all_items [] Kr) = Kr.
Proof.
  intros Hnd. unfold all_items. simpl.
  rewrite foldl_dict_set_distinct; [|assumption|].
  - simpl. unfold dict_values. rewrite <- list_fmap_compose.
    apply list_fmap_id.
  - intros k _. apply not_elem_of_nil.
Qed.

Lemma StronglySorted_by_lookup {A} (R : relation A) (l : list A) :
  (forall i j x y,
      (i < j)%nat -> l !! i = Some x -> l !! j = Some y -> R x y) ->
  StronglySorted R l.
Proof.
  induction l as [|a l IH]; intros H; constructor.
  - apply IH. intros i j x y Hij Hi Hj.
    apply (H (S i) (S j)); [lia|exact Hi|exact Hj].
  - apply Forall_lookup. intros j y Hj.
    apply (H 0%nat (S j)); [lia|reflexivity|exact Hj].
Qed.

Lemma insert_desc_smallest {A} (key : A -> Q) x (l : list A) :
  Forall (fun y => key x < key y) l -> insert_desc key x l = l ++ [x].
Proof.
  induction 1 as [|y l Hy Hl IH]; simpl; [reflexivity|].
  destruct (Qle_bool (key y) (key x)) eqn:E.
  - apply Qle_bool_iff in E. exfalso. now apply (Qlt_not_le _ _ Hy).
  - now rewrite IH.
Qed.

Lemma sorted_reverse_increasing {A} (key : A -> Q) (l : list A) :
  StronglySorted (fun a b => key a < key b) l ->
  sorted_reverse key l = reverse l.
Proof.
  induction 1 as [|x l Hs IH Hall]; simpl; [reflexivity|].
  rewrite IH, reverse_cons. apply insert_desc_smallest.
  now apply Forall_reverse.
Qed.

Lemma insert_desc_equal {A} (key : A -> Q) x (l : list A) :
  Forall (fun y => key y == key x) l -> insert_desc key x l = x :: l.
Proof.
  destruct 1 as [|y l Hy Hl]; simpl; [reflexivity|].
  assert (Qle_bool (key y) (key x) = true) as ->; [|reflexivity].
  apply Qle_bool_iff. rewrite Hy. apply Qle_refl.
Qed.

Lemma sorted_reverse_constant {A} (key : A -> Q) (c : Q) (l : list A) :
  (forall y, key y == c) -> sorted_reverse key l = l.
Proof.
  intros Hc. induction l as [|x l IH]; simpl; [reflexivity|].
  rewrite IH. apply insert_desc_equal. apply Forall_forall.
  intros y _. now rewrite !Hc.
Qed.

(** X8. Keyword results alone (no similarity results, distinct ids) come
    back in reverse scan order for every weight below 1, since the score
    grows with the position; with weight 1 all scores are zero and the
    stable sort returns them in scan order. *)
Theorem keyword_only_results_reversed Kr alpha :
  NoDup (ids Kr) -> alpha < 1 ->
  hybrid_merge [] Kr alpha = Ok (reverse Kr) /\
  hybrid_merge [] Kr 1 = Ok Kr.
Proof.
  intros Hnd Halpha. rewrite !hybrid_merge_fused.
  rewrite (all_items_keyword_only Kr Hnd). split; f_equal.
  - apply sorted_reverse_increasing, StronglySorted_by_lookup.
    intros i j x y Hij Hi Hj. unfold fused_key, fused_score.
    rewrite !(sim_contribution_absent alpha []) by apply not_elem_of_nil.
    rewrite (keyword_contribution_unique alpha Kr i x Hnd Hi).
    rewrite (keyword_contribution_unique alpha Kr j y Hnd Hj).
    apply Qplus_lt_r. apply Qmult_lt_l; [lra|].
    apply rank_score_lt; [lia|]. apply lookup_lt_Some in Hj. lia.
  - apply (sorted_reverse_constant _ 0). intros y.
    unfold fused_key, fused_score, keyword_contribution.
    rewrite keyword_sum_weight_one.
    rewrite (sim_contribution_absent 1 []) by apply not_elem_of_nil. ring.
Qed.

Lemma keyword_only_results_reversed_witness :
  NoDup (ids [kw_c; kw_b]) /\ 1 # 2 < 1 /\
  hybrid_merge [] [kw_c; kw_b] (1 # 2) = Ok (reverse [kw_c; kw_b]) /\
  hybrid_merge [] [kw_c; kw_b] 1 = Ok [kw_c; kw_b].
Proof.
  assert (NoDup (ids [kw_c; kw_b])) as H1 by by_decide.
  assert (1 # 2 < 1) as H2 by reflexivity.
  split; [exact H1|]. split; [exact H2|].
  exact (keyword_only_results_reversed [kw_c; kw_b] (1 # 2) H1 H2).
Defined.

End RankerOrder.

(** ** More on the retrieval *)

Section RecallMore.
Import Ranker.
Open Scope Q_scope.
Variable embed_query : string -> Exc (list Q).
Variable search : string -> list Q -> nat -> Exc (list Item).
Variable scroll : string -> TextFilter -> nat -> Exc (list Item).




End RecallMore.


(** ** More on the write path *)

Section WriteMore.
Import Store.
Variable reflect : string -> Exc json.
Variable requests_post : string -> json -> Exc Response.
Variable uuid4 : nat -> string.

Lemma points_of_ensured user_id (w : World) c :
  points_of (ensured user_id w) c = points_of w c.
Proof.
  unfold ensured, points_of.
  destruct (collections w !! Config.get_collection_name user_id) eqn:E;
    [reflexivity|]. simpl.
  destruct (decide (Config.get_collection_name user_id = c)) as [<-|Hne].
  - now rewrite lookup_insert_eq, E.
  - now rewrite lookup_insert_ne.
Qed.

Lemma ensured_lookup user_id (w : World) :
  collections (ensured user_id w) !! Config.get_collection_name user_id
  = Some (points_of w (Config.get_collection_name user_id)).
Proof.
  unfold ensured, points_of.
  destruct (collections w !! Config.get_collection_name user_id) eqn:E.
  - now rewrite E.
  - simpl. now rewrite lookup_insert_eq.
Qed.

Lemma insert_ensured user_id (w : World) pts :
  <[Config.get_collection_name user_id := pts]>
    (collections (ensured user_id w))
  = <[Config.get_collection_name user_id := pts]> (collections w).
Proof.
  unfold ensured.
  destruct (collections w !! Config.get_collection_name user_id);
    [reflexivity|]. simpl. apply insert_insert_eq.
Qed.

(** The write from the reflection on, started in a world where the
    collection exists. *)
Lemma add_episodic_memory_from_ensured
    (messages : list Message) (user_id : string) (w : World) :
  add_episodic_memory reflect requests_post uuid4 messages user_id w
  = (reflection ← lift (reflect (format_conversation messages));
     summary ← lift (json_get reflection "conversation_summary" (JStr ""));
     batch ← lift (embed_text requests_post (JArr [summary]));
     embedding ← lift (py_index0 batch);
     ident ← fresh_uuid uuid4;
     payload ← lift (episode_payload (format_conversation messages)
                       reflection);
     upsert (Config.get_collection_name user_id)
       [mkPoint ident embedding payload])
      (ensured user_id w).
Proof.
  unfold add_episodic_memory, ensured, mbind at 1, m_bind at 1.
  destruct (collections w !! Config.get_collection_name user_id)
    as [pts|] eqn:E.
  - now rewrite (collection_exists_present w _ pts E).
  - now rewrite (collection_exists_absent w _ E).
Qed.

(** Every run of the write ends in one of two ways. *)
Lemma add_episodic_memory_cases
    (messages : list Message) (user_id : string) (w : World) :
  (exists e,
      add_episodic_memory reflect requests_post uuid4 messages user_id w
      = (Raise e, ensured user_id w)) \/
  (exists fields batch v,
      reflect (format_conversation messages) = Ok (JObj fields) /\
      embed_text requests_post
        (JArr [dict_get_default fields "conversation_summary" (JStr "")])
      = Ok batch /\
      py_index0 batch = Ok v /\
      add_episodic_memory reflect requests_post uuid4 messages user_id w
      = (Ok tt,
         mkWorld
           (<[Config.get_collection_name user_id :=
                upsert_point
                  (mkPoint (uuid4 (uuid_draws w)) v
                     (payload_of (format_conversation messages) fields))
                  (points_of w (Config.get_collection_name user_id))]>
              (collections w))
           (S (uuid_draws w)))).
Proof.
  rewrite add_episodic_memory_from_ensured.
  unfold mbind, m_bind, lift.
  destruct (reflect (format_conversation messages)) as [reflection|e] eqn:Hr;
    [|left; now exists e].
  destruct reflection as [| | | |items|fields];
    try (left; now exists AttributeError).
  simpl.
  destruct (embed_text requests_post
              (JArr [dict_get_default fields "conversation_summary"
                       (JStr "")])) as [batch|e] eqn:He;
    [|left; now exists e].
  destruct (py_index0 batch) as [v|e] eqn:Hi; [|left; now exists e].
  right. exists fields, batch, v.
  split; [reflexivity|]. split; [exact He|]. split; [exact Hi|].
  unfold fresh_uuid, upsert. simpl.
  rewrite ensured_lookup. simpl.
  assert (uuid_draws (ensured user_id w) = uuid_draws w) as ->.
  { unfold ensured. now destruct (collections w !! _). }
  now rewrite insert_ensured.
Qed.

Lemma add_episodic_memory_success
    (messages : list Message) (user_id : string) (w : World)
    (fields : list (string * json)) (batch v : json) :
  reflect (format_conversation messages) = Ok (JObj fields) ->
  embed_text requests_post
    (JArr [dict_get_default fields "conversation_summary" (JStr "")])
  = Ok batch ->
  py_index0 batch = Ok v ->
  add_episodic_memory reflect requests_post uuid4 messages user_id w
  = (Ok tt,
     mkWorld
       (<[Config.get_collection_name user_id :=
            upsert_point
              (mkPoint (uuid4 (uuid_draws w)) v
                 (payload_of (format_conversation messages) fields))
              (points_of w (Config.get_collection_name user_id))]>
          (collections w))
       (S (uuid_draws w))).
Proof.
  intros Hr He Hi.
  destruct (add_episodic_memory_cases messages user_id w)
    as [[e Hrun]|(fields' & batch' & v' & Hr' & He' & Hi' & Hrun)].
  - exfalso. rewrite add_episodic_memory_from_ensured in Hrun.
    unfold mbind, m_bind, lift in Hrun. rewrite Hr in Hrun. simpl in Hrun.
    rewrite He, Hi in Hrun. simpl in Hrun.
    unfold upsert in Hrun. simpl in Hrun.
    rewrite ensured_lookup in Hrun. discriminate.
  - rewrite Hr in Hr'. injection Hr' as <-.
    rewrite He in He'. injection He' as <-.
    rewrite Hi in Hi'. injection Hi' as <-. exact Hrun.
Qed.

Lemma upsert_point_keeps (q p : PointStruct) (pts : list PointStruct) :
  p ∈ pts -> point_id p <> point_id q -> p ∈ upsert_point q pts.
Proof.
  intros Hin Hne. induction pts as [|p' pts IH]; simpl.
  - now apply elem_of_nil in Hin.
  - apply elem_of_cons in Hin as [<-|Hin].
    + destruct (String.eqb_spec (point_id p) (point_id q)); [contradiction|].
      apply list_elem_of_here.
    + destruct (String.eqb (point_id p') (point_id q));
        apply list_elem_of_further; auto.
Qed.

Lemma upsert_point_length (q : PointStruct) (pts : list PointStruct) :
  length pts <= length (upsert_point q pts) <= S (length pts).
Proof.
  induction pts as [|p' pts IH]; simpl; [lia|].
  destruct (String.eqb (point_id p') (point_id q)); simpl; lia.
Qed.

Lemma points_of_insert (w : World) name pts c draws :
  points_of (mkWorld (<[name := pts]> (collections w)) draws) c
  = if decide (name = c) then pts else points_of w c.
Proof.
  unfold points_of. simpl. destruct (decide (name = c)) as [<-|Hne].
  - now rewrite lookup_insert_eq.
  - now rewrite lookup_insert_ne.
Qed.


(** X12. A write that returns has drawn exactly one id and upserted
    exactly one point, into the user's collection: the point carries that
    id, element 0 of what [embed_text] returned for the one-element batch,
    and the five payload fields. *)
Theorem successful_write_inversion
    (messages : list Message) (user_id : string) (w w' : World) :
  add_episodic_memory reflect requests_post uuid4 messages user_id w
  = (Ok tt, w') ->
  exists fields batch v,
    reflect (format_conversation messages) = Ok (JObj fields) /\
    embed_text requests_post
      (JArr [dict_get_default fields "conversation_summary" (JStr "")])
    = Ok batch /\
    py_index0 batch = Ok v /\
    uuid_draws w' = S (uuid_draws w) /\
    collections w'
    = <[Config.get_collection_name user_id :=
          upsert_point
            (mkPoint (uuid4 (uuid_draws w)) v
               (payload_of (format_conversation messages) fields))
            (points_of w (Config.get_collection_name user_id))]>
        (collections w).
Proof.
  intros Hrun.
  destruct (add_episodic_memory_cases messages user_id w)
    as [[e' Hcase]|(fields & batch & v & Hr & He & Hi & Hcase)];
    rewrite Hcase in Hrun; [discriminate|].
  injection Hrun as <-. exists fields, batch, v. auto.
Qed.

(** X13. Tenant isolation on the write side: whatever its outcome, a
    write for one user leaves the collection of every other user as it
    was. *)
Theorem write_isolated_from_other_users
    (messages : list Message) (u1 u2 : string) (w : World) :
  u1 <> u2 ->
  collections
    (add_episodic_memory reflect requests_post uuid4 messages u1 w).2
    !! Config.get_collection_name u2
  = collections w !! Config.get_collection_name u2.
Proof.
  intros Hne.
  assert (Config.get_collection_name u1 <> Config.get_collection_name u2)
    as Hname.
  { intros H. apply Hne. now apply get_collection_name_inj. }
  destruct (add_episodic_memory_cases messages u1 w)
    as [[e' Hcase]|(fields & batch & v & _ & _ & _ & Hcase)];
    rewrite Hcase; simpl.
  - unfold ensured. destruct (collections w !! Config.get_collection_name u1);
      [reflexivity|]. simpl. now rewrite lookup_insert_ne.
  - now rewrite lookup_insert_ne.
Qed.

(** X14. The write never removes a stored episode: whatever its outcome,
    every collection holds at least the points it held and at most one
    more, and a stored point whose id differs from the id drawn is still
    there. *)
Theorem write_never_removes_points
    (messages : list Message) (user_id : string) (w : World)
    (c : string) (p : PointStruct) :
  p ∈ points_of w c ->
  point_id p <> uuid4 (uuid_draws w) ->
  p ∈ points_of
        (add_episodic_memory reflect requests_post uuid4 messages user_id w).2
        c /\
  length (points_of w c)
  <= length (points_of
               (add_episodic_memory reflect requests_post uuid4
                  messages user_id w).2 c)
  <= S (length (points_of w c)).
Proof.
  intros Hin Hid.
  destruct (add_episodic_memory_cases messages user_id w)
    as [[e' Hcase]|(fields & batch & v & _ & _ & _ & Hcase)];
    rewrite Hcase; simpl.
  - rewrite points_of_ensured. split; [exact Hin|lia].
  - rewrite points_of_insert.
    destruct (decide (Config.get_collection_name user_id = c)) as [<-|Hne].
    + split; [now apply upsert_point_keeps|apply upsert_point_length].
    + split; [exact Hin|lia].
Qed.

(** X15. A 200 answer whose body has no [embedding] key makes
    [embed_text] return the empty list, and the write raises [IndexError]
    on its element 0: no point is upserted and no id is drawn. *)
Theorem write_without_embedding_key
    (messages : list Message) (user_id : string) (w : World)
    (fields body : list (string * json)) (resp : Response) :
  reflect (format_conversation messages) = Ok (JObj fields) ->
  requests_post embeddings_url
    (embed_request
       (JArr [dict_get_default fields "conversation_summary" (JStr "")]))
  = Ok resp ->
  status_code resp = 200%Z ->
  response_json resp = Ok (JObj body) ->
  dict_get body "embedding" = None ->
  embed_text requests_post
    (JArr [dict_get_default fields "conversation_summary" (JStr "")])
  = Ok (JArr []) /\
  add_episodic_memory reflect requests_post uuid4 messages user_id w
  = (Raise IndexError, ensured user_id w).
Proof.
  intros Hr Hpost Hstatus Hbody Hkey.
  assert (embed_text requests_post
            (JArr [dict_get_default fields "conversation_summary" (JStr "")])
          = Ok (JArr [])) as He.
  { rewrite (embed_text_success _ _ _ _ Hpost Hstatus Hbody). simpl.
    unfold dict_get_default. now rewrite Hkey. }
  split; [exact He|].
  rewrite add_episodic_memory_from_ensured.
  unfold mbind, m_bind, lift. rewrite Hr. simpl. rewrite He. reflexivity.
Qed.


(** X17. [embed_text] returns a value only from an answer with status
    200 whose body is a JSON object, and the value is the body's
    [embedding] entry, the empty list when the body has none. *)
Theorem embed_text_only_from_200 (text v : json) :
  embed_text requests_post text = Ok v ->
  exists resp body,
    requests_post embeddings_url (embed_request text) = Ok resp /\
    status_code resp = 200%Z /\
    response_json resp = Ok (JObj body) /\
    v = dict_get_default body "embedding" (JArr []).
Proof.
  unfold embed_text. intros H.
  destruct (requests_post embeddings_url (embed_request text))
    as [resp|e]; [|discriminate].
  simpl in H.
  destruct (Z.eqb_spec (status_code resp) 200) as [Hs|Hs];
    [|discriminate].
  simpl in H.
  destruct (response_json resp) as [body|e] eqn:Hb; [|discriminate].
  simpl in H. destruct body; try discriminate.
  injection H as <-. eauto 10.
Qed.


End WriteMore.

Section WriteMoreSamples.
Import Store.


Lemma write_isolated_from_other_users_witness :
  "alice" <> "bob" /\
  collections
    (add_episodic_memory sample_reflect batch_post sample_uuid4
       sample_messages "alice" empty_world).2
    !! Config.get_collection_name "bob"
  = collections empty_world !! Config.get_collection_name "bob".
Proof.
  assert ("alice" <> "bob") as H by discriminate.
  split; [exact H|].
  exact (write_isolated_from_other_users sample_reflect batch_post
           sample_uuid4 sample_messages "alice" "bob" empty_world H).
Defined.

Lemma write_never_removes_points_witness :
  old_point ∈ points_of stocked_world "memory_orb_alice" /\
  point_id old_point <> sample_uuid4 (uuid_draws stocked_world) /\
  old_point
    ∈ points_of
        (add_episodic_memory sample_reflect batch_post sample_uuid4
           sample_messages "alice" stocked_world).2 "memory_orb_alice" /\
  length (points_of stocked_world "memory_orb_alice")
  <= length (points_of
               (add_episodic_memory sample_reflect batch_post sample_uuid4
                  sample_messages "alice" stocked_world).2
               "memory_orb_alice")
  <= S (length (points_of stocked_world "memory_orb_alice")).
Proof.
  assert (old_point ∈ points_of stocked_world "memory_orb_alice") as H1.
  { unfold points_of, stocked_world. simpl.
    rewrite lookup_singleton_eq. apply list_elem_of_here. }
  assert (point_id old_point <> sample_uuid4 (uuid_draws stocked_world))
    as H2 by (vm_compute; discriminate).
  split; [exact H1|]. split; [exact H2|].
  exact (write_never_removes_points sample_reflect batch_post sample_uuid4
           sample_messages "alice" stocked_world "memory_orb_alice"
           old_point H1 H2).
Defined.

Lemma write_without_embedding_key_witness :
  embed_text keyless_post (JArr [JStr "Explained attention."])
  = Ok (JArr []) /\
  add_episodic_memory sample_reflect keyless_post sample_uuid4
    sample_messages "alice" empty_world
  = (Raise IndexError, ensured "alice" empty_world).
Proof.
  apply (write_without_embedding_key sample_reflect keyless_post sample_uuid4
           sample_messages "alice" empty_world
           [ ("context_tags", JArr [JStr "attention_mechanism"]);
             ("conversation_summary", JStr "Explained attention.");
             ("what_worked", JStr "A short definition.");
             ("what_to_avoid", JStr "N/A") ]
           [] (mkResponse 200 "{}" (Ok (JObj []))));
    reflexivity.
Defined.


Lemma embed_text_only_from_200_witness :
  embed_text batch_post (JArr [JStr "Explained attention."])
  = Ok (JArr [JArr [JNum (1 # 10); JNum (2 # 10)]]) /\
  exists resp body,
    batch_post embeddings_url
      (embed_request (JArr [JStr "Explained attention."])) = Ok resp /\
    status_code resp = 200%Z /\
    response_json resp = Ok (JObj body) /\
    JArr [JArr [JNum (1 # 10); JNum (2 # 10)]]
    = dict_get_default body "embedding" (JArr []).
Proof.
  assert (embed_text batch_post (JArr [JStr "Explained attention."])
          = Ok (JArr [JArr [JNum (1 # 10); JNum (2 # 10)]])) as H
    by reflexivity.
  split; [exact H|].
  exact (embed_text_only_from_200 batch_post _ _ H).
Defined.


End WriteMoreSamples.

(** ** The context composer *)

Section PromptFacts.
Import Ranker Prompt.
Open Scope Q_scope.
Variable embed_query : string -> Exc (list Q).
Variable search : string -> list Q -> nat -> Exc (list Item).
Variable scroll : string -> TextFilter -> nat -> Exc (list Item).
Variable py_str : json -> string.


Lemma all_items_empty : dict_values (all_items [] []) = [].
Proof. reflexivity. Qed.



Lemma py_getitem_payload_of conversation fields k :
  k ∈ ["context_tags"; "conversation_summary"; "what_worked";
       "what_to_avoid"] ->
  exists v, py_getitem (Store.payload_of conversation fields) k = Ok v.
Proof.
  intros Hk. repeat (apply elem_of_cons in Hk as [->|Hk]); simpl; eauto.
  now apply elem_of_nil in Hk.
Qed.








End PromptFacts.

Section PromptSamples.
Import Ranker Prompt.





(** The reflection template asks for the string [N/A] where a field is
    unknown; as tags, the composer joins the characters of that string. *)
Example tags_not_applicable :
  py_join ", " (JStr "N/A") = Ok "N, /, A".
Proof. reflexivity. Qed.

End PromptSamples.

(** ** The per-user configuration *)

Section UserConfigFacts.
Import UserConfig.

Lemma dict_copy_run (h : heap) l d :
  h !! l = Some d ->
  dict_copy l h = (Ok (fresh (dom h)), <[fresh (dom h) := d]> h).
Proof. intros E. unfold dict_copy. now rewrite E. Qed.

Lemma getitem_run (h : heap) l d k v :
  h !! l = Some d -> dict_get d k = Some v -> getitem l k h = (Ok v, h).
Proof. intros E Ek. unfold getitem. now rewrite E, Ek. Qed.

Lemma setitem_run (h : heap) l d k v :
  h !! l = Some d -> setitem l k v h = (Ok tt, <[l := dict_set d k v]> h).
Proof. intros E. unfold setitem. now rewrite E. Qed.

Lemma fresh_lookup (h : heap) : h !! fresh (dom h) = None.
Proof. apply not_elem_of_dom, is_fresh. Qed.

(** Where a run of [get_user_config] on a well-formed configuration ends:
    three new objects, the copies of [config], of its [vector_store] and
    of the [config] of that, each with one entry reassigned; every other
    object as it was. *)
Lemma get_user_config_run (h : heap) (config vs vc : nat)
    (cd vsd vcd : dict value) (user_id : string) :
  h !! config = Some cd ->
  dict_get cd "vector_store" = Some (VRef vs) ->
  h !! vs = Some vsd ->
  dict_get vsd "config" = Some (VRef vc) ->
  h !! vc = Some vcd ->
  exists r vs' vc' h',
    get_user_config config user_id h = (Ok r, h') /\
    h !! r = None /\ h !! vs' = None /\ h !! vc' = None /\
    r <> vs' /\ r <> vc' /\ vs' <> vc' /\
    h' !! r = Some (dict_set cd "vector_store" (VRef vs')) /\
    h' !! vs' = Some (dict_set vsd "config" (VRef vc')) /\
    h' !! vc'
    = Some (dict_set vcd "collection_name"
              (VStr (Config.get_collection_name user_id))) /\
    forall l, l <> r -> l <> vs' -> l <> vc' -> h' !! l = h !! l.
Proof.
  intros Hc Hvs Hvsd Hvc Hvcd.
  set (r := fresh (dom h)).
  set (h1 := <[r := cd]> h).
  set (vs' := fresh (dom h1)).
  set (h2 := <[vs' := vsd]> h1).
  set (h3 := <[r := dict_set cd "vector_store" (VRef vs')]> h2).
  set (vc' := fresh (dom h3)).
  set (h4 := <[vc' := vcd]> h3).
  set (h5 := <[vs' := dict_set vsd "config" (VRef vc')]> h4).
  set (h6 := <[vc' := dict_set vcd "collection_name"
                        (VStr (Config.get_collection_name user_id))]> h5).
  assert (h !! r = None) as Fr by apply fresh_lookup.
  assert (h1 !! vs' = None) as Fvs by apply fresh_lookup.
  assert (h3 !! vc' = None) as Fvc by apply fresh_lookup.
  assert (r <> vs') as Nrvs.
  { intros E. rewrite <- E in Fvs. unfold h1 in Fvs.
    rewrite lookup_insert_eq in Fvs. discriminate. }
  assert (h !! vs' = None) as Fvs0.
  { unfold h1 in Fvs. now rewrite lookup_insert_ne in Fvs. }
  assert (r <> vc') as Nrvc.
  { intros E. rewrite <- E in Fvc. unfold h3 in Fvc.
    rewrite lookup_insert_eq in Fvc. discriminate. }
  assert (vs' <> vc') as Nvsvc.
  { intros E. rewrite <- E in Fvc. unfold h3, h2 in Fvc.
    rewrite lookup_insert_ne, lookup_insert_eq in Fvc by assumption.
    discriminate. }
  assert (h !! vc' = None) as Fvc0.
  { unfold h3, h2, h1 in Fvc.
    now rewrite !lookup_insert_ne in Fvc by congruence. }
  assert (config <> r) as Ncr by congruence.
  assert (config <> vs') as Ncvs by congruence.
  assert (vs <> r) as Nvr by congruence.
  assert (vs <> vs') as Nvv by congruence.
  assert (vc <> r) as Nwr by congruence.
  assert (vc <> vs') as Nwv by congruence.
  exists r, vs', vc', h6.
  split.
  { unfold get_user_config, mbind, h_bind.
    rewrite (dict_copy_run h config cd Hc). fold r h1.
    rewrite (getitem_run h1 config cd "vector_store" (VRef vs)); try done.
    2:{ unfold h1. now rewrite lookup_insert_ne. }
    simpl copy_of.
    rewrite (dict_copy_run h1 vs vsd).
    2:{ unfold h1. now rewrite lookup_insert_ne. }
    fold vs' h2.
    rewrite (setitem_run h2 r cd).
    2:{ unfold h2, h1. rewrite lookup_insert_ne by congruence.
        apply lookup_insert_eq. }
    fold h3.
    rewrite (getitem_run h3 config cd "vector_store" (VRef vs)); try done.
    2:{ unfold h3, h2, h1. now rewrite !lookup_insert_ne by congruence. }
    simpl getitem_of.
    rewrite (getitem_run h3 vs vsd "config" (VRef vc)); try done.
    2:{ unfold h3, h2, h1. now rewrite !lookup_insert_ne by congruence. }
    simpl copy_of.
    rewrite (dict_copy_run h3 vc vcd).
    2:{ unfold h3, h2, h1. now rewrite !lookup_insert_ne by congruence. }
    fold vc' h4.
    rewrite (getitem_run h4 r (dict_set cd "vector_store" (VRef vs'))
               "vector_store" (VRef vs')).
    2:{ unfold h4, h3. rewrite lookup_insert_ne by congruence.
        apply lookup_insert_eq. }
    2:{ apply dict_get_set_eq. }
    simpl setitem_of.
    rewrite (setitem_run h4 vs' vsd).
    2:{ unfold h4, h3, h2. rewrite !lookup_insert_ne by congruence.
        apply lookup_insert_eq. }
    fold h5.
    rewrite (getitem_run h5 r (dict_set cd "vector_store" (VRef vs'))
               "vector_store" (VRef vs')).
    2:{ unfold h5, h4, h3. rewrite !lookup_insert_ne by congruence.
        apply lookup_insert_eq. }
    2:{ apply dict_get_set_eq. }
    simpl getitem_of.
    rewrite (getitem_run h5 vs' (dict_set vsd "config" (VRef vc'))
               "config" (VRef vc')).
    2:{ unfold h5. apply lookup_insert_eq. }
    2:{ apply dict_get_set_eq. }
    simpl setitem_of.
    rewrite (setitem_run h5 vc' vcd).
    2:{ unfold h5, h4. rewrite lookup_insert_ne by congruence.
        apply lookup_insert_eq. }
    reflexivity. }
  repeat split; try assumption.
  - unfold h6, h5, h4, h3. rewrite !lookup_insert_ne by congruence.
    apply lookup_insert_eq.
  - unfold h6, h5. rewrite lookup_insert_ne by congruence.
    apply lookup_insert_eq.
  - unfold h6. apply lookup_insert_eq.
  - intros l Hr Hs Hv. unfold h6, h5, h4, h3, h2, h1.
    now rewrite !lookup_insert_ne by congruence.
Qed.

Lemma read3_run (h : heap) (root l1 l2 : nat) (d0 d1 d2 : dict value)
    (k1 k2 k3 : string) :
  h !! root = Some d0 -> dict_get d0 k1 = Some (VRef l1) ->
  h !! l1 = Some d1 -> dict_get d1 k2 = Some (VRef l2) ->
  h !! l2 = Some d2 ->
  read3 h root k1 k2 k3
  = match dict_get d2 k3 with
    | Some v => Ok v
    | None => Raise KeyError
    end.
Proof.
  intros H0 E0 H1 E1 H2. unfold read3, mbind, h_bind.
  rewrite (getitem_run h root d0 k1 _ H0 E0). simpl getitem_of.
  rewrite (getitem_run h l1 d1 k2 _ H1 E1). simpl getitem_of.
  unfold getitem. rewrite H2. now destruct (dict_get d2 k3).
Qed.

(** X23. [get_user_config] does not touch the global configuration: the
    dictionary it returns is a new object, every dictionary that existed
    is left as it was, and the global [collection_name] reads as
    before. *)
Theorem get_user_config_keeps_global (h : heap) (config vs vc : nat)
    (cd vsd vcd : dict value) (user_id : string) :
  h !! config = Some cd ->
  dict_get cd "vector_store" = Some (VRef vs) ->
  h !! vs = Some vsd ->
  dict_get vsd "config" = Some (VRef vc) ->
  h !! vc = Some vcd ->
  exists r h',
    get_user_config config user_id h = (Ok r, h') /\
    h !! r = None /\
    (forall l d, h !! l = Some d -> h' !! l = Some d) /\
    read3 h' config "vector_store" "config" "collection_name"
    = read3 h config "vector_store" "config" "collection_name".
Proof.
  intros Hc Hvs Hvsd Hvc Hvcd.
  destruct (get_user_config_run h config vs vc cd vsd vcd user_id
              Hc Hvs Hvsd Hvc Hvcd)
    as (r & vs' & vc' & h' & Hrun & Fr & Fvs & Fvc & _ & _ & _
        & _ & _ & _ & Hother).
  assert (forall l d, h !! l = Some d -> h' !! l = Some d) as Hkeep.
  { intros l d Hl. rewrite Hother by congruence. exact Hl. }
  exists r, h'. split; [exact Hrun|]. split; [exact Fr|].
  split; [exact Hkeep|].
  rewrite (read3_run h' config vs vc cd vsd vcd); auto.
  now rewrite (read3_run h config vs vc cd vsd vcd).
Qed.

(** X24. In the configuration returned, the collection name is the
    user's, and every other setting of the vector store reads as in the
    global configuration. *)
Theorem get_user_config_sets_collection (h : heap) (config vs vc : nat)
    (cd vsd vcd : dict value) (user_id : string) :
  h !! config = Some cd ->
  dict_get cd "vector_store" = Some (VRef vs) ->
  h !! vs = Some vsd ->
  dict_get vsd "config" = Some (VRef vc) ->
  h !! vc = Some vcd ->
  exists r h',
    get_user_config config user_id h = (Ok r, h') /\
    read3 h' r "vector_store" "config" "collection_name"
    = Ok (VStr (Config.get_collection_name user_id)) /\
    forall k, k <> "collection_name" ->
      read3 h' r "vector_store" "config" k
      = read3 h config "vector_store" "config" k.
Proof.
  intros Hc Hvs Hvsd Hvc Hvcd.
  destruct (get_user_config_run h config vs vc cd vsd vcd user_id
              Hc Hvs Hvsd Hvc Hvcd)
    as (r & vs' & vc' & h' & Hrun & _ & _ & _ & _ & _ & _
        & Hr & Hs & Hv & _).
  exists r, h'. split; [exact Hrun|].
  split.
  - rewrite (read3_run h' r vs' vc' _ _ _ _ _ _ Hr
               (dict_get_set_eq _ _ _) Hs (dict_get_set_eq _ _ _) Hv).
    now rewrite dict_get_set_eq.
  - intros k Hk.
    rewrite (read3_run h' r vs' vc' _ _ _ _ _ _ Hr
               (dict_get_set_eq _ _ _) Hs (dict_get_set_eq _ _ _) Hv).
    rewrite (read3_run h config vs vc cd vsd vcd); auto.
    now rewrite dict_get_set_ne by congruence.
Qed.

(** X25. The copy is shallow above the vector store: an entry of
    [config] other than [vector_store] that refers to a dictionary (the
    [llm] and [embedder] settings) is shared with the configuration
    returned, so an assignment made through the returned configuration
    shows in the global one. *)
Theorem get_user_config_shares_settings (h : heap) (config vs vc sub : nat)
    (cd vsd vcd subd : dict value) (user_id k k' : string) (x : value) :
  h !! config = Some cd ->
  dict_get cd "vector_store" = Some (VRef vs) ->
  h !! vs = Some vsd ->
  dict_get vsd "config" = Some (VRef vc) ->
  h !! vc = Some vcd ->
  k <> "vector_store" ->
  dict_get cd k = Some (VRef sub) ->
  sub <> config ->
  h !! sub = Some subd ->
  exists r h' h'',
    get_user_config config user_id h = (Ok r, h') /\
    getitem r k h' = (Ok (VRef sub), h') /\
    (settings ← getitem r k; setitem_of settings k' x) h' = (Ok tt, h'') /\
    (settings ← getitem config k; getitem_of settings k') h'' = (Ok x, h'').
Proof.
  intros Hc Hvs Hvsd Hvc Hvcd Hk Hsub Hself Hsubd.
  destruct (get_user_config_run h config vs vc cd vsd vcd user_id
              Hc Hvs Hvsd Hvc Hvcd)
    as (r & vs' & vc' & h' & Hrun & Fr & Fvs & Fvc & _ & _ & _
        & Hr & _ & _ & Hother).
  assert (h' !! sub = Some subd) as Hsub'.
  { rewrite Hother by congruence. exact Hsubd. }
  assert (h' !! config = Some cd) as Hc'.
  { rewrite Hother by congruence. exact Hc. }
  assert (getitem r k h' = (Ok (VRef sub), h')) as Hget.
  { apply (getitem_run h' r _ k _ Hr).
    now rewrite dict_get_set_ne by congruence. }
  exists r, h', (<[sub := dict_set subd k' x]> h').
  split; [exact Hrun|]. split; [exact Hget|].
  split.
  - unfold mbind, h_bind. rewrite Hget. simpl setitem_of.
    now rewrite (setitem_run h' sub subd).
  - unfold mbind, h_bind.
    rewrite (getitem_run _ config cd k (VRef sub)); [|
      rewrite lookup_insert_ne by congruence; exact Hc' | exact Hsub].
    simpl getitem_of.
    apply (getitem_run _ sub (dict_set subd k' x)).
    + apply lookup_insert_eq.
    + apply dict_get_set_eq.
Qed.

End UserConfigFacts.

Section UserConfigSamples.
Import UserConfig.

Lemma get_user_config_keeps_global_witness :
  exists r h',
    get_user_config 0 "alice" config_heap = (Ok r, h') /\
    config_heap !! r = None /\
    (forall l d, config_heap !! l = Some d -> h' !! l = Some d) /\
    read3 h' 0 "vector_store" "config" "collection_name"
    = read3 config_heap 0 "vector_store" "config" "collection_name".
Proof.
  apply (get_user_config_keeps_global config_heap 0 5 6
           [ ("llm", VRef 1); ("embedder", VRef 3);
             ("vector_store", VRef 5); ("version", VStr "v1.1") ]
           [ ("provider", VStr "qdrant"); ("config", VRef 6) ]
           [ ("collection_name", VStr Config.BASE_COLLECTION_NAME);
             ("host", VStr "localhost"); ("port", VNum 6333);
             ("embedding_model_dims", VNum 1024) ]
           "alice");
    reflexivity.
Defined.

Lemma get_user_config_sets_collection_witness :
  exists r h',
    get_user_config 0 "alice" config_heap = (Ok r, h') /\
    read3 h' r "vector_store" "config" "collection_name"
    = Ok (VStr (Config.get_collection_name "alice")) /\
    forall k, k <> "collection_name" ->
      read3 h' r "vector_store" "config" k
      = read3 config_heap 0 "vector_store" "config" k.
Proof.
  apply (get_user_config_sets_collection config_heap 0 5 6
           [ ("llm", VRef 1); ("embedder", VRef 3);
             ("vector_store", VRef 5); ("version", VStr "v1.1") ]
           [ ("provider", VStr "qdrant"); ("config", VRef 6) ]
           [ ("collection_name", VStr Config.BASE_COLLECTION_NAME);
             ("host", VStr "localhost"); ("port", VNum 6333);
             ("embedding_model_dims", VNum 1024) ]
           "alice");
    reflexivity.
Defined.

Lemma get_user_config_shares_settings_witness :
  exists r h' h'',
    get_user_config 0 "alice" config_heap = (Ok r, h') /\
    getitem r "llm" h' = (Ok (VRef 1), h') /\
    (settings ← getitem r "llm";
     setitem_of settings "provider" (VStr "other")) h' = (Ok tt, h'') /\
    (settings ← getitem 0%nat "llm"; getitem_of settings "provider") h''
    = (Ok (VStr "other"), h'').
Proof.
  apply (get_user_config_shares_settings config_heap 0 5 6 1
           [ ("llm", VRef 1); ("embedder", VRef 3);
             ("vector_store", VRef 5); ("version", VStr "v1.1") ]
           [ ("provider", VStr "qdrant"); ("config", VRef 6) ]
           [ ("collection_name", VStr Config.BASE_COLLECTION_NAME);
             ("host", VStr "localhost"); ("port", VNum 6333);
             ("embedding_model_dims", VNum 1024) ]
           [ ("provider", VStr "openai"); ("config", VRef 2) ]
           "alice" "llm" "provider" (VStr "other"));
    try reflexivity; discriminate.
Defined.

(** On the module's own [config], the call returns object 7 and the
    collection name of the user. *)
Example get_user_config_on_module_config :
  (get_user_config 0 "alice" config_heap).1 = Ok 7%nat /\
  read3 (get_user_config 0 "alice" config_heap).2 7
    "vector_store" "config" "collection_name"
  = Ok (VStr "memory_orb_alice").
Proof. split; vm_compute; reflexivity. Qed.

End UserConfigSamples.

(** ** Strings: transcript and brace extraction *)

Section StringFacts.

Lemma append_assoc_string (a b c : string) :
  (a +:+ b) +:+ c = a +:+ (b +:+ c).
Proof.
  induction a as [|x a IH]; [reflexivity|].
  change (String x ((a +:+ b) +:+ c) = String x (a +:+ b +:+ c)).
  now f_equal.
Qed.

Lemma join_snoc (sep : string) (l : list string) (x : string) :
  PyStr.join sep (l ++ [x])
  = match l with
    | [] => x
    | _ :: _ => PyStr.join sep l +:+ sep +:+ x
    end.
Proof.
  induction l as [|a l IH]; [reflexivity|].
  destruct l as [|b l]; [reflexivity|].
  change (PyStr.join sep ((a :: b :: l) ++ [x]))
    with (a +:+ sep +:+ PyStr.join sep ((b :: l) ++ [x])).
  rewrite IH.
  change (PyStr.join sep (a :: b :: l))
    with (a +:+ sep +:+ PyStr.join sep (b :: l)).
  now rewrite !append_assoc_string.
Qed.

(** X26. A transcript with no turn after the first message is empty, and
    appending a message appends one line [TYPE: content], after a newline
    when there was a turn before; the first message never shows. *)
Theorem format_conversation_append_turn
    (first : Store.Message) (turns : list Store.Message)
    (message : Store.Message) :
  Store.format_conversation [] = "" /\
  Store.format_conversation [first] = "" /\
  Store.format_conversation (first :: turns ++ [message])
  = match turns with
    | [] => Store.turn_line message
    | _ :: _ =>
        Store.format_conversation (first :: turns)
        +:+ Store.newline +:+ Store.turn_line message
    end.
Proof.
  split; [reflexivity|]. split; [reflexivity|].
  unfold Store.format_conversation.
  change (drop 1 (first :: turns ++ [message])) with (turns ++ [message]).
  change (drop 1 (first :: turns)) with turns.
  rewrite fmap_app.
  rewrite (join_snoc Store.newline _ (Store.turn_line message)).
  now destruct turns.
Qed.

Lemma find_from_absent_shift (c : ascii) (s : string) (i j : Z) :
  (0 <= i)%Z -> PyStr.find_from c s i = (-1)%Z ->
  PyStr.find_from c s j = (-1)%Z.
Proof.
  revert i j. induction s as [|a s IH]; intros i j Hi; simpl; [reflexivity|].
  destruct (Ascii.eqb a c); [lia|].
  apply IH. lia.
Qed.

Lemma find_from_app (c : ascii) (s t : string) (i : Z) :
  (0 <= i)%Z -> PyStr.find_from c s i = (-1)%Z ->
  PyStr.find_from c (s +:+ t) i
  = PyStr.find_from c t (i + Z.of_nat (String.length s)).
Proof.
  revert i. induction s as [|a s IH]; intros i Hi; simpl.
  - intros _. f_equal. lia.
  - destruct (Ascii.eqb a c); [lia|]. intros H.
    rewrite IH by (auto; lia). f_equal. lia.
Qed.

Lemma rfind_from_app (c : ascii) (s t : string) (i last : Z) :
  PyStr.rfind_from c (s +:+ t) i last
  = PyStr.rfind_from c t (i + Z.of_nat (String.length s))
      (PyStr.rfind_from c s i last).
Proof.
  revert i last. induction s as [|a s IH]; intros i last; simpl.
  - f_equal. lia.
  - rewrite IH. f_equal. lia.
Qed.

Lemma rfind_from_ge (c : ascii) (s : string) (i last : Z) :
  (last < i)%Z -> (last <= PyStr.rfind_from c s i last)%Z.
Proof.
  revert i last. induction s as [|a s IH]; intros i last Hi; simpl; [lia|].
  destruct (Ascii.eqb a c).
  - specialize (IH (i + 1)%Z i). lia.
  - apply IH. lia.
Qed.

Lemma rfind_from_absent (c : ascii) (s : string) (i : Z) :
  (0 <= i)%Z -> PyStr.rfind_from c s i (-1) = (-1)%Z ->
  forall j last, PyStr.rfind_from c s j last = last.
Proof.
  revert i. induction s as [|a s IH]; intros i Hi; simpl; [reflexivity|].
  destruct (Ascii.eqb a c).
  - intros H. pose proof (rfind_from_ge c s (i + 1) i). lia.
  - intros H j last. apply (IH (i + 1)%Z); [lia|exact H].
Qed.

Lemma substring_skip (p t : string) (n : nat) :
  substring (String.length p) n (p +:+ t) = substring 0 n t.
Proof. induction p as [|a p IH]; simpl; [reflexivity|exact IH]. Qed.

Lemma substring_prefix (m t : string) :
  substring 0 (String.length m) (m +:+ t) = m.
Proof.
  induction m as [|a m IH]; simpl.
  - now destruct t.
  - now rewrite IH.
Qed.

Lemma length_append (a b : string) :
  String.length (a +:+ b) = (String.length a + String.length b)%nat.
Proof.
  induction a as [|x a IH]; [reflexivity|].
  change (S (String.length (a +:+ b))
          = S (String.length a + String.length b)).
  now f_equal.
Qed.

Lemma slice_middle (p m t : string) :
  PyStr.slice (p +:+ m +:+ t) (Z.of_nat (String.length p))
    (Z.of_nat (String.length p + String.length m))
  = m.
Proof.
  unfold PyStr.slice, PyStr.clamp.
  rewrite !length_append.
  destruct (Z.ltb_spec (Z.of_nat (String.length p)) 0); [lia|].
  destruct (Z.ltb_spec (Z.of_nat (String.length p + String.length m)) 0);
    [lia|].
  rewrite !Z.min_l by lia.
  destruct (Z.ltb_spec (Z.of_nat (String.length p))
              (Z.of_nat (String.length p + String.length m))) as [Hlt|Hge].
  - rewrite Nat2Z.id.
    replace (Z.to_nat (Z.of_nat (String.length p + String.length m)
                       - Z.of_nat (String.length p)))
      with (String.length m) by lia.
    rewrite substring_skip. apply substring_prefix.
  - destruct m; [reflexivity|]. simpl in Hge. lia.
Qed.

End StringFacts.

(** ** The parser's brace extraction *)

Section ExtractionFacts.
Import Parser.
Variable json_loads : string -> Exc json.

Lemma find_first_brace (c : ascii) (prefix rest : string) :
  PyStr.find c prefix = (-1)%Z ->
  PyStr.find c (prefix +:+ String c rest)
  = Z.of_nat (String.length prefix).
Proof.
  intros H. unfold PyStr.find in *.
  rewrite find_from_app by (auto; lia).
  simpl. now rewrite Ascii.eqb_refl.
Qed.

Lemma rfind_last_brace (c : ascii) (front suffix : string) :
  PyStr.rfind c suffix = (-1)%Z ->
  PyStr.rfind c (front +:+ String c suffix)
  = Z.of_nat (String.length front).
Proof.
  intros H. unfold PyStr.rfind in *.
  rewrite rfind_from_app. simpl. rewrite Ascii.eqb_refl.
  now rewrite (rfind_from_absent c suffix 0) by (auto; lia).
Qed.

Lemma braced_slice (prefix middle suffix : string) :
  PyStr.find "{" prefix = (-1)%Z ->
  PyStr.rfind "}" suffix = (-1)%Z ->
  PyStr.slice (prefix +:+ "{" +:+ middle +:+ "}" +:+ suffix)
    (PyStr.find "{" (prefix +:+ "{" +:+ middle +:+ "}" +:+ suffix))
    (PyStr.rfind "}" (prefix +:+ "{" +:+ middle +:+ "}" +:+ suffix) + 1)
  = "{" +:+ middle +:+ "}".
Proof.
  intros Hopen Hclose.
  change ("{" +:+ middle +:+ "}" +:+ suffix)
    with (String "{" (middle +:+ "}" +:+ suffix)).
  rewrite (find_first_brace "{" prefix _ Hopen).
  assert (prefix +:+ String "{" (middle +:+ "}" +:+ suffix)
          = (prefix +:+ String "{" middle) +:+ String "}" suffix) as E.
  { rewrite append_assoc_string. reflexivity. }
  rewrite E at 2. rewrite (rfind_last_brace "}" _ suffix Hclose).
  assert (prefix +:+ String "{" (middle +:+ "}" +:+ suffix)
          = prefix +:+ ("{" +:+ middle +:+ "}") +:+ suffix) as E'.
  { f_equal. change (String "{" (middle +:+ String "}" suffix)
                     = String "{" ((middle +:+ "}") +:+ suffix)).
    f_equal. now rewrite append_assoc_string. }
  rewrite E'.
  replace (Z.of_nat (String.length (prefix +:+ String "{" middle)) + 1)%Z
    with (Z.of_nat (String.length prefix
                    + String.length ("{" +:+ middle +:+ "}"))).
  - apply slice_middle.
  - rewrite !length_append.
    change (String.length (String "{" middle)) with (S (String.length middle)).
    simpl String.length. lia.
Qed.

(** X27. Run in a module that binds [json], the parser hands
    [json.loads] exactly the text from the first opening brace to the last
    closing brace, prose before and after left out, and returns what
    [json.loads] makes of it, or the error draft with the whole response
    when [json.loads] raises. *)
Theorem parse_extracts_braced_text (globals : list string)
    (prefix middle suffix : string) :
  "json" ∈ globals ->
  PyStr.find "{" prefix = (-1)%Z ->
  PyStr.rfind "}" suffix = (-1)%Z ->
  parse_in json_loads globals
    (prefix +:+ "{" +:+ middle +:+ "}" +:+ suffix)
  = match json_loads ("{" +:+ middle +:+ "}") with
    | Ok v => v
    | Raise e =>
        error_draft e (prefix +:+ "{" +:+ middle +:+ "}" +:+ suffix)
    end.
Proof.
  intros Hjson Hopen Hclose.
  rewrite (parse_in_json_bound json_loads globals _ Hjson).
  now rewrite braced_slice.
Qed.

(** X28. For a response without a closing brace the slice is empty,
    wherever an opening brace may stand: in a module that binds [json],
    the parser's answer is what [json.loads] makes of the empty string. *)
Theorem parse_without_closing_brace (globals : list string) (text : string) :
  "json" ∈ globals ->
  PyStr.rfind "}" text = (-1)%Z ->
  PyStr.slice text (PyStr.find "{" text) (PyStr.rfind "}" text + 1) = "" /\
  parse_in json_loads globals text
  = match json_loads "" with
    | Ok v => v
    | Raise e => error_draft e text
    end.
Proof.
  intros Hjson Hclose.
  assert (PyStr.slice text (PyStr.find "{" text) (PyStr.rfind "}" text + 1)
          = "") as Hslice.
  { rewrite Hclose. unfold PyStr.slice.
    set (len := Z.of_nat (String.length text)).
    assert (0 <= len)%Z by (unfold len; lia).
    assert (PyStr.clamp len (-1 + 1) = 0%Z) as ->.
    { unfold PyStr.clamp. simpl. lia. }
    assert (0 <= PyStr.clamp len (PyStr.find "{" text))%Z.
    { unfold PyStr.clamp. destruct (Z.ltb_spec (PyStr.find "{" text) 0); lia. }
    destruct (Z.ltb_spec (PyStr.clamp len (PyStr.find "{" text)) 0);
      [lia|reflexivity]. }
  split; [exact Hslice|].
  rewrite (parse_in_json_bound json_loads globals _ Hjson).
  now rewrite Hslice.
Qed.

End ExtractionFacts.

Lemma parse_extracts_braced_text_witness :
  "json" ∈ "json" :: Parser.memory_v2_globals /\
  PyStr.find "{" "Sure: " = (-1)%Z /\
  PyStr.rfind "}" " done" = (-1)%Z /\
  Parser.parse_in (fun s => Ok (JStr s)) ("json" :: Parser.memory_v2_globals)
    ("Sure: " +:+ "{" +:+ "x" +:+ "}" +:+ " done")
  = JStr ("{" +:+ "x" +:+ "}").
Proof.
  assert ("json" ∈ "json" :: Parser.memory_v2_globals) as H1
    by apply list_elem_of_here.
  assert (PyStr.find "{" "Sure: " = (-1)%Z) as H2 by reflexivity.
  assert (PyStr.rfind "}" " done" = (-1)%Z) as H3 by reflexivity.
  split; [exact H1|]. split; [exact H2|]. split; [exact H3|].
  exact (parse_extracts_braced_text (fun s => Ok (JStr s))
           ("json" :: Parser.memory_v2_globals) "Sure: " "x" " done"
           H1 H2 H3).
Defined.

Lemma parse_without_closing_brace_witness :
  "json" ∈ "json" :: Parser.memory_v2_globals /\
  PyStr.rfind "}" "no object {" = (-1)%Z /\
  PyStr.slice "no object {" (PyStr.find "{" "no object {")
    (PyStr.rfind "}" "no object {" + 1) = "" /\
  Parser.parse_in (fun _ => Raise (JSONDecodeError "Expecting value"))
    ("json" :: Parser.memory_v2_globals) "no object {"
  = Parser.error_draft (JSONDecodeError "Expecting value") "no object {".
Proof.
  assert ("json" ∈ "json" :: Parser.memory_v2_globals) as H1
    by apply list_elem_of_here.
  assert (PyStr.rfind "}" "no object {" = (-1)%Z) as H2 by reflexivity.
  split; [exact H1|]. split; [exact H2|].
  exact (parse_without_closing_brace
           (fun _ => Raise (JSONDecodeError "Expecting value"))
           ("json" :: Parser.memory_v2_globals) "no object {" H1 H2).
Defined.

Lemma successful_write_inversion_witness :
  exists w',
    Store.add_episodic_memory Store.sample_reflect Store.batch_post
      Store.sample_uuid4 Store.sample_messages "alice" Store.empty_world
    = (Ok tt, w') /\
    exists fields batch v,
      Store.sample_reflect (Store.format_conversation Store.sample_messages)
      = Ok (JObj fields) /\
      Store.embed_text Store.batch_post
        (JArr [dict_get_default fields "conversation_summary" (JStr "")])
      = Ok batch /\
      Store.py_index0 batch = Ok v /\
      Store.uuid_draws w' = S (Store.uuid_draws Store.empty_world) /\
      Store.collections w'
      = <[Config.get_collection_name "alice" :=
            Store.upsert_point
              (Store.mkPoint
                 (Store.sample_uuid4 (Store.uuid_draws Store.empty_world)) v
                 (Store.payload_of
                    (Store.format_conversation Store.sample_messages) fields))
              (Store.points_of Store.empty_world
                 (Config.get_collection_name "alice"))]>
          (Store.collections Store.empty_world).
Proof.
  eexists. split.
  - apply (add_episodic_memory_success Store.sample_reflect Store.batch_post
             Store.sample_uuid4 Store.sample_messages "alice"
             Store.empty_world
             [ ("context_tags", JArr [JStr "attention_mechanism"]);
               ("conversation_summary", JStr "Explained attention.");
               ("what_worked", JStr "A short definition.");
               ("what_to_avoid", JStr "N/A") ]
             (JArr [JArr [JNum (1 # 10); JNum (2 # 10)]])
             (JArr [JNum (1 # 10); JNum (2 # 10)]));
      reflexivity.
  - apply (successful_write_inversion Store.sample_reflect Store.batch_post
             Store.sample_uuid4 Store.sample_messages "alice"
             Store.empty_world).
    apply (add_episodic_memory_success Store.sample_reflect Store.batch_post
             Store.sample_uuid4 Store.sample_messages "alice"
             Store.empty_world
             [ ("context_tags", JArr [JStr "attention_mechanism"]);
               ("conversation_summary", JStr "Explained attention.");
               ("what_worked", JStr "A short definition.");
               ("what_to_avoid", JStr "N/A") ]
             (JArr [JArr [JNum (1 # 10); JNum (2 # 10)]])
             (JArr [JNum (1 # 10); JNum (2 # 10)]));
      reflexivity.
Defined.
